(** * authmiddleware: the authorization cascade of [authmiddleware.go]

  A shallow embedding of the HTTP gatekeeper: the machine checks
  ([checkLocal], [checkBearerToken], [checkWSO2], [MachineChecks]), the
  group check ([PassGatekeeper]) and the two middleware entry points
  ([Authenticate], [AuthenticateUser]).

  Go strings are byte sequences and are modelled by [string] (a list of
  8-bit [ascii]).  The process environment ([os.Getenv]) and the request
  headers ([http.Header]) are finite maps.  Logging, calls to the external
  verifiers and the response actions are recorded, in order, in a trace. *)

From Stdlib Require Import ZArith Ascii String.
From stdpp Require Import base option list gmap strings.

Local Open Scope string_scope.
Local Open Scope list_scope.

(** ** The [strings] package, as far as the middleware uses it *)

Module strings.

(** [explode s]: one string per byte of [s]; what [strings.Split] does for
    an empty separator on ASCII text. *)
Fixpoint explode (s : string) : list string :=
  match s with
  | EmptyString => []
  | String c s' => String c EmptyString :: explode s'
  end.

(** The scan of [strings.Split] for a non-empty separator: [cur] is the
    piece being collected and [skip] counts the bytes of a separator that
    was just matched and is still to be passed over.  Separators are
    matched left to right and do not overlap. *)
Fixpoint genSplit (sep : string) (skip : nat) (cur : string) (s : string)
  : list string :=
  match s with
  | EmptyString => [cur]
  | String c s' =>
      match skip with
      | S k => genSplit sep k cur s'
      | O =>
          if String.prefix sep s
          then cur :: genSplit sep (String.length sep - 1) EmptyString s'
          else genSplit sep 0 (cur +:+ String c EmptyString) s'
      end
  end.

(** [strings.Split(s, sep)]. *)
Definition Split (s sep : string) : list string :=
  match sep with
  | EmptyString => explode s
  | _ => genSplit sep 0 EmptyString s
  end.

(** Lower-casing of one ASCII byte. *)
Definition lowerByte (c : ascii) : ascii :=
  let n := N_of_ascii c in
  if ((65 <=? n) && (n <=? 90))%N then ascii_of_N (n + 32) else c.

Fixpoint lower (s : string) : string :=
  match s with
  | EmptyString => EmptyString
  | String c s' => String (lowerByte c) (lower s')
  end.

(** [strings.EqualFold(s, t)] on ASCII letters.  Unicode simple folding
    adds to the ASCII letters only U+212A (for k) and U+017F (for s), so
    for a second argument without k or s, such as "Bearer", this is
    exactly Go's function. *)
Definition EqualFold (s t : string) : bool :=
  bool_decide (lower s = lower t).

End strings.

(** ** [net/http] headers *)

Module http.

Definition StatusBadRequest : Z := 400.

(** [validHeaderFieldByte]: the token characters of RFC 7230. *)
Definition validHeaderFieldByte (c : ascii) : bool :=
  let n := N_of_ascii c in
  (((48 <=? n) && (n <=? 57)) || ((65 <=? n) && (n <=? 90))
   || ((97 <=? n) && (n <=? 122))
   || bool_decide (n ∈ [33; 35; 36; 37; 38; 39; 42; 43; 45; 46; 94; 95; 96; 124; 126]))%N.

Fixpoint allValid (s : string) : bool :=
  match s with
  | EmptyString => true
  | String c s' => validHeaderFieldByte c && allValid s'
  end.

(** The rewriting loop of [canonicalMIMEHeaderKey]: the first letter and
    every letter after a hyphen in upper case, the others in lower case. *)
Fixpoint canon (upper : bool) (s : string) : string :=
  match s with
  | EmptyString => EmptyString
  | String c s' =>
      let n := N_of_ascii c in
      let c' :=
        if (upper && (97 <=? n) && (n <=? 122))%N then ascii_of_N (n - 32)
        else if (negb upper && (65 <=? n) && (n <=? 90))%N then ascii_of_N (n + 32)
        else c in
      String c' (canon (bool_decide (c' = "-"%char)) s')
  end.

(** [textproto.CanonicalMIMEHeaderKey]: a key with a byte that is not a
    token character is returned unchanged. *)
Definition CanonicalMIMEHeaderKey (s : string) : string :=
  if allValid s then canon true s else s.

(** [http.Header] is [map[string][]string]. *)
Definition Header := gmap string (list string).

(** [Header.Get]: the first value of the canonical key, or "". *)
Definition Get (h : Header) (key : string) : string :=
  match h !! CanonicalMIMEHeaderKey key with
  | Some (v :: _) => v
  | _ => ""
  end.

(** The part of [*http.Request] that reaches this package; method and path
    are carried along and never interpreted. *)
Record Request := {
  Method : string;
  Path : string;
  Headers : Header
}.

End http.

(** ** The process environment *)

Module os.

(** [os.Getenv]: the value of the variable, "" when it is unset. *)
Definition Getenv (env : gmap string string) (key : string) : string :=
  default "" (env !! key).

End os.

(** ** Data model of the middleware *)

(** Go's [error]: [None] is [nil], [Some msg] an error whose [Error()] is
    [msg]. *)
Definition error := option string.

(** What one request does that is visible outside the package, in order. *)
Inductive Event :=
| Log (line : string)                          (* log.Printf, log.Println *)
| CheckTokenCall (token : string)              (* bearertoken.CheckToken *)
| ValidateCall (token : string)                (* wso2jwt.Validate *)
| GetGroupsForUserCall (user : string)         (* ad.GetGroupsForUser *)
| JSONResponse (status : Z) (message : string) (* jsonresp.New *)
| ServeHTTP                                    (* next.ServeHTTP *)
| RedirectToLogin.                             (* cas.RedirectToLogin *)

(** The state a request runs in: the environment of the process and the
    trace of events so far. *)
Record State := {
  environ : gmap string string;
  trace : list Event
}.

(** The external packages the middleware calls, by their contracts only.
    Within one request each of them is called at most once, so a function
    of the argument covers every answer a call can give. *)
Record Collaborators := {
  CheckToken : string -> bool * error;
  Validate : string -> bool * error;
  GetGroupsForUser : string -> list string * error;
  IsAuthenticated : http.Request -> bool;
  Username : http.Request -> string
}.

(** The wrapped handler [next] runs in the same process: what the
    middleware can observe of it afterwards is the environment it leaves. *)
Definition Handler := http.Request -> gmap string string -> gmap string string.

(** ** A state monad for the Go statements *)

Definition M (A : Type) : Type := State -> A * State.

Definition ret {A : Type} (a : A) : M A := fun s => (a, s).

Definition bind {A B : Type} (m : M A) (k : A -> M B) : M B :=
  fun s => let (a, s') := m s in k a s'.

Notation "x <- m ;; k" := (bind m (fun x => k))
  (at level 20, m at level 99, k at level 200, only parsing).
Notation "' pat <- m ;; k" := (bind m (fun x => match x with pat => k end))
  (at level 20, pat pattern, m at level 99, k at level 200, only parsing).
Notation "m ;;; k" := (bind m (fun _ => k))
  (at level 100, k at level 200, only parsing, right associativity).

(** The state with the events [evs] appended to its trace. *)
Definition addTrace (evs : list Event) (s : State) : State :=
  {| environ := environ s; trace := trace s ++ evs |}.

Definition emit (e : Event) : M unit := fun s => (tt, addTrace [e] s).

Definition log (line : string) : M unit := emit (Log line).

Definition getenv (key : string) : M string :=
  fun s => (os.Getenv (environ s) key, s).

(** [if b { m }] *)
Definition when (b : bool) (m : M unit) : M unit := if b then m else ret tt.

(** ** The checks *)

Section Middleware.

Variable ext : Collaborators.
Variable next : Handler.

Definition callCheckToken (token : string) : M (bool * error) :=
  emit (CheckTokenCall token) ;;; ret (CheckToken ext token).

Definition callValidate (token : string) : M (bool * error) :=
  emit (ValidateCall token) ;;; ret (Validate ext token).

Definition callGetGroupsForUser (user : string) : M (list string * error) :=
  emit (GetGroupsForUserCall user) ;;; ret (GetGroupsForUser ext user).

(** [jsonresp.New(w, status, message)] *)
Definition jsonrespNew (status : Z) (message : string) : M unit :=
  emit (JSONResponse status message).

(** [next.ServeHTTP(w, r)] *)
Definition nextServeHTTP (r : http.Request) : M unit :=
  fun s => (tt, {| environ := next r (environ s); trace := trace s ++ [ServeHTTP] |}).

Definition checkLocal : M (bool * error) :=
  log "Local check starting" ;;;
  v <- getenv "LOCAL_ENVIRONMENT" ;;
  if (0 <? String.length v)%nat then
    log "Authorized via LOCAL_ENVIRONMENT" ;;;
    ret (true, None)
  else
    log "Local check finished" ;;;
    ret (false, None).

Definition checkBearerToken (request : http.Request) : M (bool * error) :=
  let finished := log "Bearer token check finished" ;;; ret (false, None) in
  log "Bearer token check starting" ;;;
  let token := http.Get (http.Headers request) "Authorization" in
  if (0 <? String.length token)%nat then
    let parts := strings.Split token " " in
    if negb (length parts =? 2)%nat
       || negb (strings.EqualFold (parts !!! 0%nat) "Bearer")
    then ret (false, Some "Bad Authorization header")
    else
      '(valid, err) <- callCheckToken (parts !!! 1%nat) ;;
      match err with
      | Some _ => ret (false, err)
      | None =>
          if valid then
            log "Bearer token authorized" ;;;
            ret (true, None)
          else finished
      end
  else finished.

Definition checkWSO2 (request : http.Request) : M (bool * error) :=
  let finished := log "WSO2 check finished" ;;; ret (false, None) in
  log "WSO2 check starting" ;;;
  let token := http.Get (http.Headers request) "X-jwt-assertion" in
  if (0 <? String.length token)%nat then
    '(valid, err) <- callValidate token ;;
    match err with
    | Some _ =>
        log "Invalid WSO2 information" ;;;
        ret (false, err)
    | None =>
        if valid then
          log "WSO2 validated successfully" ;;;
          ret (true, None)
        else finished
    end
  else finished.

Definition MachineChecks (request : http.Request) : M (bool * error) :=
  '(passed, err) <- checkLocal ;;
  match err with
  | Some _ => ret (passed, err)
  | None =>
  if passed then ret (passed, None) else
  '(passed, err) <- checkBearerToken request ;;
  match err with
  | Some _ => ret (passed, err)
  | None =>
  if passed then ret (passed, None) else
  '(passed, err) <- checkWSO2 request ;;
  match err with
  | Some _ => ret (passed, err)
  | None =>
  if passed then ret (passed, None) else
  ret (passed, err)
  end end end.

(** The inner loop of [PassGatekeeper]: [for j := range ADGroups]. *)
Fixpoint matchesGroup (c : string) (ADGroups : list string) : bool :=
  match ADGroups with
  | [] => false
  | g :: rest => if bool_decide (c = g) then true else matchesGroup c rest
  end.

(** The outer loop: [for i := range control]. *)
Fixpoint matchesControl (control ADGroups : list string) : bool :=
  match control with
  | [] => false
  | c :: rest => if matchesGroup c ADGroups then true else matchesControl rest ADGroups
  end.

Definition PassGatekeeper (user : string) (control : list string) : M bool :=
  '(ADGroups, err) <- callGetGroupsForUser user ;;
  match err with
  | Some e =>
      log ("Error getting groups for the user: " +:+ e) ;;;
      ret false
  | None => ret (matchesControl control ADGroups)
  end.

(** ** The two entry points *)

Definition Authenticate (request : http.Request) : M unit :=
  '(passed, err) <- MachineChecks request ;;
  match err with
  | Some e => jsonrespNew http.StatusBadRequest e
  | None =>
      if passed then nextServeHTTP request
      else jsonrespNew http.StatusBadRequest "Not authorized"
  end.

(** The function handed to [c.HandleFunc].  The CAS client has looked up the
    session before it runs; [IsAuthenticated] and [Username] read it. *)
Definition AuthenticateUser (r : http.Request) : M unit :=
  '(passed, err) <- MachineChecks r ;;
  match err with
  | Some e => jsonrespNew http.StatusBadRequest e
  | None =>
      when passed (nextServeHTTP r) ;;;
      when (negb passed)
        (if negb (IsAuthenticated ext r) then emit RedirectToLogin
         else
           v <- getenv "GEN_CONTROL_GROUPS" ;;
           let control := strings.Split v ", " in
           access <- PassGatekeeper (Username ext r) control ;;
           when access (nextServeHTTP r) ;;;
           when (negb access) (jsonrespNew http.StatusBadRequest "Not authorized"))
  end.

End Middleware.

(** The allow-list a request arriving in state [s] hands to
    [PassGatekeeper] (line 63 of the source). *)
Definition controlGroups (s : State) : list string :=
  strings.Split (os.Getenv (environ s) "GEN_CONTROL_GROUPS") ", ".

(** ** The life of the process: one request after another *)

Inductive Mode := MachineOnly | UserCapable.

Definition handle (ext : Collaborators) (next : Handler) (m : Mode)
  (r : http.Request) : M unit :=
  match m with
  | MachineOnly => Authenticate ext next r
  | UserCapable => AuthenticateUser ext next r
  end.

(** The states the process reaches from [s0] with the handler [next]
    installed; the collaborators may answer differently at every request. *)
Inductive reachable (next : Handler) (s0 : State) : State -> Prop :=
| reach_start : reachable next s0 s0
| reach_request (s : State) (ext : Collaborators) (m : Mode) (r : http.Request) :
    reachable next s0 s ->
    reachable next s0 (snd (handle ext next m r s)).

(** ** Observations on a run *)

(** The events that running [m] from [s] appends to the trace. *)
Definition emitted {A : Type} (m : M A) (s : State) : list Event :=
  drop (length (trace s)) (trace (snd (m s))).

(** [m] only appends to the trace, and only events satisfying [P]. *)
Definition appends {A : Type} (P : Event -> Prop) (m : M A) : Prop :=
  forall s, exists evs, trace (snd (m s)) = trace s ++ evs /\ Forall P evs.

(** [m] leaves the process environment as it found it. *)
Definition keepsEnv {A : Type} (m : M A) : Prop :=
  forall s, environ (snd (m s)) = environ s.

(** A call to one of the two token verifiers. *)
Definition consultsVerifier (e : Event) : bool :=
  match e with
  | CheckTokenCall _ | ValidateCall _ => true
  | _ => false
  end.

(** An action that answers the request: the wrapped handler, a JSON
    response, or the redirect to the login page. *)
Definition isResponse (e : Event) : bool :=
  match e with
  | JSONResponse _ _ | ServeHTTP | RedirectToLogin => true
  | _ => false
  end.

(** A step of the user-level flow: the login redirect or the directory
    lookup of the group check. *)
Definition isUserLevel (e : Event) : bool :=
  match e with
  | RedirectToLogin | GetGroupsForUserCall _ => true
  | _ => false
  end.

(** The events the machine checks can produce. *)
Definition machineEvent (e : Event) : Prop :=
  isResponse e = false /\ isUserLevel e = false.

(** The events of the group check. *)
Definition gatekeeperEvent (e : Event) : Prop :=
  isResponse e = false /\ consultsVerifier e = false.

(** The collaborators [ext] with the session and directory side replaced. *)
Definition withUserSide (ext : Collaborators)
  (groups : string -> list string * error)
  (session : http.Request -> bool) (name : http.Request -> string)
  : Collaborators :=
  {| CheckToken := CheckToken ext;
     Validate := Validate ext;
     GetGroupsForUser := groups;
     IsAuthenticated := session;
     Username := name |}.

(** ** The cascade as the specification words it *)

Inductive Verdict :=
| Authorized
| Denied
| Error (reason : string).

(** The verdict a Go result pair stands for. *)
Definition verdict (r : bool * error) : Verdict :=
  match r with
  | (_, Some e) => Error e
  | (true, None) => Authorized
  | (false, None) => Denied
  end.

(** Checks run in the order of the list; [Error] and [Authorized] halt the
    cascade, [Denied] moves on to the next check; when no check is left the
    result is [Denied]. *)
Fixpoint spec_cascade (checks : list (M (bool * error))) : M Verdict :=
  match checks with
  | [] => ret Denied
  | check :: rest =>
      r <- check ;;
      match verdict r with
      | Denied => spec_cascade rest
      | v => ret v
      end
  end.

(** ** Concrete collaborators, requests and states for the examples *)

Definition request (headers : list (string * list string)) : http.Request :=
  {| http.Method := "GET"; http.Path := "/"; http.Headers := list_to_map headers |}.

(** A bearer verifier that accepts "good" and fails on "boom", a JWT
    verifier that accepts "jwt", a directory that knows "jdoe", "sam" and
    "guest", and a session carried in the Cookie header. *)
Definition demoExt : Collaborators :=
  {| CheckToken := fun t =>
       (bool_decide (t = "good"),
        if bool_decide (t = "boom") then Some "verifier down" else None);
     Validate := fun t => (bool_decide (t = "jwt"), None);
     GetGroupsForUser := fun u =>
       if bool_decide (u = "jdoe") then (["staff"; "alumni"], None)
       else if bool_decide (u = "sam") then (["students"], None)
       else if bool_decide (u = "guest") then ([""], None)
       else ([], Some "no such user");
     IsAuthenticated := fun r => bool_decide (http.Get (http.Headers r) "Cookie" <> "");
     Username := fun r => http.Get (http.Headers r) "Cookie" |}.

(** A handler that leaves the environment alone. *)
Definition quietHandler : Handler := fun _ env => env.

(** A handler that calls [os.Setenv("GEN_CONTROL_GROUPS", "admins")]. *)
Definition setenvHandler : Handler :=
  fun _ env => <["GEN_CONTROL_GROUPS" := "admins"]> env.

Definition startState (env : list (string * string)) : State :=
  {| environ := list_to_map env; trace := [] |}.

(** A process started with two control groups, and a request of the
    logged-in user "jdoe" without machine credentials. *)
Definition demoStart : State :=
  startState [("GEN_CONTROL_GROUPS", "admins, staff")].

Definition demoUserRequest : http.Request := request [("Cookie", ["jdoe"])].

(** A request of the logged-in user "guest", whose only directory group is
    the empty string. *)
Definition demoGuestRequest : http.Request := request [("Cookie", ["guest"])].

(** The number of space bytes of a string. *)
Fixpoint spaces (s : string) : nat :=
  match s with
  | EmptyString => 0
  | String c s' => (if bool_decide (c = " "%char) then 1 else 0) + spaces s'
  end.

(** [n] bytes dropped from the front of a string. *)
Fixpoint dropBytes (n : nat) (s : string) : string :=
  match n, s with
  | S k, String _ s' => dropBytes k s'
  | _, _ => s
  end.

(** The kinds of events, one classifier each. *)
Definition isCheckTokenCall (e : Event) : bool :=
  match e with CheckTokenCall _ => true | _ => false end.

Definition isValidateCall (e : Event) : bool :=
  match e with ValidateCall _ => true | _ => false end.

Definition isDirectoryCall (e : Event) : bool :=
  match e with GetGroupsForUserCall _ => true | _ => false end.

Definition isServe (e : Event) : bool :=
  match e with ServeHTTP => true | _ => false end.

(** A run of the process: the requests served one after another, each
    with the mode of its route and the answers the collaborators give
    while it is handled. *)
Fixpoint serveAll (next : Handler)
  (requests : list (Collaborators * Mode * http.Request)) (s : State) : State :=
  match requests with
  | [] => s
  | (ext, m, r) :: rest => serveAll next rest (snd (handle ext next m r s))
  end.

Example Split_two : strings.Split "Bearer xyz" " " = ["Bearer"; "xyz"].
Proof. reflexivity. Qed.

Example Split_groups : strings.Split "admins, staff" ", " = ["admins"; "staff"].
Proof. reflexivity. Qed.

Example Split_empty : strings.Split "" ", " = [""].
Proof. reflexivity. Qed.

Example Split_trailing : strings.Split "a b " " " = ["a"; "b"; ""].
Proof. reflexivity. Qed.

Example EqualFold_bearer : strings.EqualFold "bEARER" "Bearer" = true.
Proof. reflexivity. Qed.

Example canonical_authorization :
http.CanonicalMIMEHeaderKey "Authorization" = "Authorization".
Proof. reflexivity. Qed.

Example canonical_assertion :
http.CanonicalMIMEHeaderKey "X-jwt-assertion" = "X-Jwt-Assertion".
Proof. reflexivity. Qed.

(** The scenarios of the specification, run on the model. *)

Example scenario_A :
  emitted (Authenticate demoExt quietHandler (request []))
    (startState [("LOCAL_ENVIRONMENT", "true")])
  = [Log "Local check starting"; Log "Authorized via LOCAL_ENVIRONMENT"; ServeHTTP].
Proof. by vm_compute. Qed.

Example scenario_B_valid :
  List.filter isResponse
    (emitted (Authenticate demoExt quietHandler
                (request [("Authorization", ["Bearer good"])])) (startState []))
  = [ServeHTTP].
Proof. by vm_compute. Qed.

Example scenario_B_invalid :
  fst (MachineChecks demoExt (request [("Authorization", ["Bearer xyz"])])
         (startState []))
  = (false, None).
Proof. by vm_compute. Qed.

Example scenario_C :
  List.filter isResponse
    (emitted (Authenticate demoExt quietHandler
                (request [("Authorization", ["xyz"])])) (startState []))
  = [JSONResponse 400 "Bad Authorization header"].
Proof. by vm_compute. Qed.

Example scenario_D :
  List.filter isResponse
    (emitted (AuthenticateUser demoExt quietHandler (request [])) demoStart)
  = [RedirectToLogin].
Proof. by vm_compute. Qed.

Example scenario_E :
  List.filter isResponse
    (emitted (AuthenticateUser demoExt quietHandler demoUserRequest) demoStart)
  = [ServeHTTP].
Proof. by vm_compute. Qed.

Example scenario_F :
  List.filter isResponse
    (emitted (AuthenticateUser demoExt quietHandler (request [("Cookie", ["sam"])]))
       demoStart)
  = [JSONResponse 400 "Not authorized"].
Proof. by vm_compute. Qed.

(** A verifier failure is passed on as the 400 message. *)
Example verifier_failure :
  emitted (Authenticate demoExt quietHandler
             (request [("Authorization", ["Bearer boom"])])) (startState [])
  = [Log "Local check starting"; Log "Local check finished";
     Log "Bearer token check starting"; CheckTokenCall "boom";
     JSONResponse 400 "verifier down"].
Proof. by vm_compute. Qed.

(** ** [strings.Split] on a single space *)

Lemma genSplit_space_length (cur s : string) :
  length (strings.genSplit " " 0 cur s) = S (spaces s).
Proof.
  revert cur. induction s as [|c s IH]; intros cur; [done|].
  cbn [strings.genSplit spaces String.prefix String.length].
  destruct (ascii_dec " " c) as [<-|Hc].
  - rewrite bool_decide_true by done.
    replace (String.prefix "" s) with true by by destruct s.
    simpl. by rewrite IH.
  - rewrite bool_decide_false by congruence. apply IH.
Qed.

(** The parts of a header value are one more than its spaces: "exactly two
    parts" is "exactly one space". *)
Lemma Split_space_length (s : string) :
  length (strings.Split s " ") = S (spaces s).
Proof. apply genSplit_space_length. Qed.

(** ** The trace only grows *)

Lemma addTrace_addTrace (evs1 evs2 : list Event) (s : State) :
  addTrace evs2 (addTrace evs1 s) = addTrace (evs1 ++ evs2) s.
Proof. unfold addTrace; simpl. by rewrite <- app_assoc. Qed.

Lemma emitted_of_trace {A : Type} (m : M A) (s : State) (evs : list Event) :
  trace (snd (m s)) = trace s ++ evs -> emitted m s = evs.
Proof. intros H. unfold emitted. rewrite H. apply drop_app_length. Qed.

Lemma emitted_of_run {A : Type} (m : M A) (s : State) (a : A) (evs : list Event) :
  m s = (a, addTrace evs s) -> emitted m s = evs.
Proof. intros H. apply emitted_of_trace. by rewrite H. Qed.

Section Appends.

Context {A B : Type} (P : Event -> Prop).

Lemma appends_ret (a : A) : appends P (ret a).
Proof. intros s. exists []. simpl. by rewrite app_nil_r. Qed.

Lemma appends_bind (m : M A) (k : A -> M B) :
  appends P m -> (forall a, appends P (k a)) -> appends P (bind m k).
Proof.
  intros Hm Hk s. unfold bind.
  destruct (Hm s) as (evs1 & H1 & F1).
  destruct (m s) as [a s1]; simpl in H1.
  destruct (Hk a s1) as (evs2 & H2 & F2).
  exists (evs1 ++ evs2). split.
  - by rewrite H2, H1, app_assoc.
  - by apply Forall_app.
Qed.

Lemma appends_weaken (Q : Event -> Prop) (m : M A) :
  (forall e, Q e -> P e) -> appends Q m -> appends P m.
Proof.
  intros HQP Hm s. destruct (Hm s) as (evs & H & F).
  exists evs. split; [done|]. eapply Forall_impl; eauto.
Qed.

End Appends.

Lemma appends_emit (P : Event -> Prop) (e : Event) : P e -> appends P (emit e).
Proof. intros He s. exists [e]. split; [done|]. by constructor. Qed.

Lemma appends_getenv (P : Event -> Prop) (key : string) : appends P (getenv key).
Proof. intros s. exists []. simpl. by rewrite app_nil_r. Qed.

Lemma appends_when (P : Event -> Prop) (b : bool) (m : M unit) :
  appends P m -> appends P (when b m).
Proof. destruct b; simpl; [done|]. intros _. apply appends_ret. Qed.

Lemma appends_serve (P : Event -> Prop) (next : Handler) (r : http.Request) :
  P ServeHTTP -> appends P (nextServeHTTP next r).
Proof. intros He s. exists [ServeHTTP]. split; [done|]. by constructor. Qed.

Section KeepsEnv.

Context {A B : Type}.

Lemma keepsEnv_ret (a : A) : keepsEnv (ret a).
Proof. by intros s. Qed.

Lemma keepsEnv_bind (m : M A) (k : A -> M B) :
  keepsEnv m -> (forall a, keepsEnv (k a)) -> keepsEnv (bind m k).
Proof.
  intros Hm Hk s. unfold bind.
  specialize (Hm s). destruct (m s) as [a s1]; simpl in Hm.
  by rewrite Hk.
Qed.

End KeepsEnv.

Lemma keepsEnv_emit (e : Event) : keepsEnv (emit e).
Proof. by intros s. Qed.

Lemma keepsEnv_getenv (key : string) : keepsEnv (getenv key).
Proof. by intros s. Qed.

Lemma keepsEnv_when (b : bool) (m : M unit) : keepsEnv m -> keepsEnv (when b m).
Proof. destruct b; simpl; [done|]. intros _. apply keepsEnv_ret. Qed.

Create HintDb run discriminated.

#[local] Hint Resolve appends_ret appends_bind appends_emit appends_getenv
  appends_when appends_serve keepsEnv_ret keepsEnv_bind keepsEnv_emit
  keepsEnv_getenv keepsEnv_when : run.

#[local] Hint Unfold machineEvent gatekeeperEvent log jsonrespNew
  callCheckToken callValidate callGetGroupsForUser : run.

(** Case analysis on every test of a Go function, leaving the straight-line
    pieces to the [run] hints. *)
Ltac go_cases :=
  repeat first
    [ progress intros
    | progress autounfold with run
    | match goal with
      | |- appends _ (if ?b then _ else _) => destruct b
      | |- keepsEnv (if ?b then _ else _) => destruct b
      | |- appends _ (match ?x with _ => _ end) => destruct x
      | |- keepsEnv (match ?x with _ => _ end) => destruct x
      | |- appends _ (bind _ _) => apply appends_bind
      | |- keepsEnv (bind _ _) => apply keepsEnv_bind
      end
    | solve [ auto with run ] ].

Section Runs.

Context (ext : Collaborators) (next : Handler).

Lemma checkLocal_appends : appends machineEvent checkLocal.
Proof. unfold checkLocal. go_cases. Qed.

Lemma checkBearerToken_appends (r : http.Request) :
  appends machineEvent (checkBearerToken ext r).
Proof. unfold checkBearerToken. cbv zeta. go_cases. Qed.

Lemma checkWSO2_appends (r : http.Request) :
  appends machineEvent (checkWSO2 ext r).
Proof. unfold checkWSO2. cbv zeta. go_cases. Qed.

Lemma MachineChecks_appends (r : http.Request) :
  appends machineEvent (MachineChecks ext r).
Proof.
  pose proof checkLocal_appends.
  pose proof (checkBearerToken_appends r).
  pose proof (checkWSO2_appends r).
  unfold MachineChecks. go_cases.
Qed.

Lemma PassGatekeeper_appends (user : string) (control : list string) :
  appends gatekeeperEvent (PassGatekeeper ext user control).
Proof. unfold PassGatekeeper. go_cases. Qed.

Lemma MachineChecks_keepsEnv (r : http.Request) : keepsEnv (MachineChecks ext r).
Proof.
  unfold MachineChecks, checkLocal, checkBearerToken, checkWSO2. cbv zeta.
  go_cases.
Qed.

Lemma PassGatekeeper_keepsEnv (user : string) (control : list string) :
  keepsEnv (PassGatekeeper ext user control).
Proof. unfold PassGatekeeper. go_cases. Qed.

End Runs.

(** ** The machine checks *)

(** C1. [MachineChecks] is the cascade of the specification over the three
    checks in the order environment bypass, bearer token, federated JWT: it
    yields the same verdict and leaves the same state (hence the same
    trace of calls) as running the checks in that order and halting at the
    first [Error] or [Authorized], moving on after [Denied]. *)
Theorem MachineChecks_cascade (ext : Collaborators) (r : http.Request) (s : State) :
  (x <- MachineChecks ext r ;; ret (verdict x)) s
  = spec_cascade [checkLocal; checkBearerToken ext r; checkWSO2 ext r] s.
Proof.
  unfold MachineChecks, spec_cascade, bind, ret.
  destruct (checkLocal s) as [[[|] [e1|]] s1]; simpl; try done.
  destruct (checkBearerToken ext r s1) as [[[|] [e2|]] s2]; simpl; try done.
  by destruct (checkWSO2 ext r s2) as [[[|] [e3|]] s3].
Qed.

Lemma nonempty_length (v : string) :
  (0 <? String.length v)%nat = negb (bool_decide (v = "")).
Proof. by destruct v. Qed.

Lemma Get_absent (h : http.Header) (key : string) :
  h !! http.CanonicalMIMEHeaderKey key = None -> http.Get h key = "".
Proof. intros H. unfold http.Get. by rewrite H. Qed.

Section CheckRuns.

Context (ext : Collaborators).

Lemma checkLocal_set (s : State) :
  os.Getenv (environ s) "LOCAL_ENVIRONMENT" <> "" ->
  checkLocal s
  = ((true, None),
     addTrace [Log "Local check starting"; Log "Authorized via LOCAL_ENVIRONMENT"] s).
Proof.
  intros H. unfold checkLocal, bind, log, emit, getenv, ret. simpl.
  rewrite nonempty_length, bool_decide_false by done. simpl.
  by rewrite addTrace_addTrace.
Qed.

Lemma checkLocal_unset (s : State) :
  os.Getenv (environ s) "LOCAL_ENVIRONMENT" = "" ->
  checkLocal s
  = ((false, None),
     addTrace [Log "Local check starting"; Log "Local check finished"] s).
Proof.
  intros H. unfold checkLocal, bind, log, emit, getenv, ret. simpl.
  rewrite H. simpl. by rewrite addTrace_addTrace.
Qed.

Lemma checkBearerToken_no_token (r : http.Request) (s : State) :
  http.Get (http.Headers r) "Authorization" = "" ->
  checkBearerToken ext r s
  = ((false, None),
     addTrace [Log "Bearer token check starting"; Log "Bearer token check finished"] s).
Proof.
  intros H. unfold checkBearerToken, bind, log, emit, ret. simpl.
  rewrite H. simpl. by rewrite addTrace_addTrace.
Qed.

Lemma checkBearerToken_malformed (r : http.Request) (s : State) (token : string) :
  http.Get (http.Headers r) "Authorization" = token ->
  token <> "" ->
  length (strings.Split token " ") <> 2
  \/ strings.EqualFold (strings.Split token " " !!! 0%nat) "Bearer" = false ->
  checkBearerToken ext r s
  = ((false, Some "Bad Authorization header"),
     addTrace [Log "Bearer token check starting"] s).
Proof.
  intros Htok Hne Hbad. unfold checkBearerToken, bind, log, emit, ret. simpl.
  rewrite Htok, nonempty_length, bool_decide_false by done. simpl.
  replace (negb (length (strings.Split token " ") =? 2)%nat
           || negb (strings.EqualFold (strings.Split token " " !!! 0%nat) "Bearer"))
    with true; [done|].
  symmetry. apply orb_true_iff. destruct Hbad as [Hlen | Hfold].
  - left. apply negb_true_iff. by apply Nat.eqb_neq.
  - right. by rewrite Hfold.
Qed.

Lemma checkWSO2_no_token (r : http.Request) (s : State) :
  http.Get (http.Headers r) "X-jwt-assertion" = "" ->
  checkWSO2 ext r s
  = ((false, None),
     addTrace [Log "WSO2 check starting"; Log "WSO2 check finished"] s).
Proof.
  intros H. unfold checkWSO2, bind, log, emit, ret. simpl.
  rewrite H. simpl. by rewrite addTrace_addTrace.
Qed.

Lemma MachineChecks_no_credentials (r : http.Request) (s : State) :
  os.Getenv (environ s) "LOCAL_ENVIRONMENT" = "" ->
  http.Get (http.Headers r) "Authorization" = "" ->
  http.Get (http.Headers r) "X-jwt-assertion" = "" ->
  MachineChecks ext r s
  = ((false, None),
     addTrace [Log "Local check starting"; Log "Local check finished";
               Log "Bearer token check starting"; Log "Bearer token check finished";
               Log "WSO2 check starting"; Log "WSO2 check finished"] s).
Proof.
  intros Henv Hauth Hjwt. unfold MachineChecks, bind.
  rewrite checkLocal_unset by done.
  rewrite checkBearerToken_no_token by done.
  rewrite checkWSO2_no_token by done.
  unfold ret. by rewrite !addTrace_addTrace.
Qed.

End CheckRuns.

(** C2, amended.  When the Authorization value that [Header.Get] returns is
    non-empty and is not exactly two space-separated parts, or its first
    part is not "Bearer" up to case, [checkBearerToken] returns the error
    "Bad Authorization header" without calling the verifier; and in
    machine-only mode, when the environment bypass is not set, the client
    gets a 400 response carrying that message. *)
Theorem bad_authorization_header (ext : Collaborators) (next : Handler)
  (r : http.Request) (s : State) (token : string) :
  http.Get (http.Headers r) "Authorization" = token ->
  token <> "" ->
  length (strings.Split token " ") <> 2
  \/ strings.EqualFold (strings.Split token " " !!! 0%nat) "Bearer" = false ->
  checkBearerToken ext r s
  = ((false, Some "Bad Authorization header"),
     addTrace [Log "Bearer token check starting"] s)
  /\ (os.Getenv (environ s) "LOCAL_ENVIRONMENT" = "" ->
      emitted (Authenticate ext next r) s
      = [Log "Local check starting"; Log "Local check finished";
         Log "Bearer token check starting";
         JSONResponse 400 "Bad Authorization header"]).
Proof.
  intros Htok Hne Hbad.
  pose proof (checkBearerToken_malformed ext r) as Hrun.
  split; [by eapply Hrun|].
  intros Henv. eapply emitted_of_run with (a := tt).
  unfold Authenticate, MachineChecks, bind.
  rewrite checkLocal_unset by done.
  erewrite Hrun by done.
  unfold jsonrespNew, emit, ret. by rewrite !addTrace_addTrace.
Qed.

Lemma bad_authorization_header_witness :
  checkBearerToken demoExt (request [("Authorization", ["xyz"])]) (startState [])
  = ((false, Some "Bad Authorization header"),
     addTrace [Log "Bearer token check starting"] (startState []))
  /\ emitted (Authenticate demoExt quietHandler (request [("Authorization", ["xyz"])]))
       (startState [])
     = [Log "Local check starting"; Log "Local check finished";
        Log "Bearer token check starting";
        JSONResponse 400 "Bad Authorization header"].
Proof.
  destruct (bad_authorization_header demoExt quietHandler
              (request [("Authorization", ["xyz"])]) (startState []) "xyz")
    as [Hcheck Hresp].
  - reflexivity.
  - discriminate.
  - left. vm_compute. lia.
  - split; [exact Hcheck | apply Hresp; reflexivity].
Defined.

(** C2 as stated fails twice.  With LOCAL_ENVIRONMENT set, a request whose
    Authorization header is the single part "xyz" reaches the wrapped
    handler and no 400 response is written; and a request whose
    Authorization header is present with an empty value (one part, not
    two) is denied silently by [checkBearerToken]. *)
Lemma bad_header_without_error :
  http.Headers (request [("Authorization", ["xyz"])]) !! "Authorization" = Some ["xyz"]
  /\ length (strings.Split "xyz" " ") <> 2
  /\ emitted (Authenticate demoExt quietHandler (request [("Authorization", ["xyz"])]))
       (startState [("LOCAL_ENVIRONMENT", "true")])
     = [Log "Local check starting"; Log "Authorized via LOCAL_ENVIRONMENT"; ServeHTTP]
  /\ http.Headers (request [("Authorization", [""])]) !! "Authorization" = Some [""]
  /\ length (strings.Split "" " ") <> 2
  /\ fst (checkBearerToken demoExt (request [("Authorization", [""])]) (startState []))
     = (false, None).
Proof.
  split; [by vm_compute|]. split; [vm_compute; lia|].
  split; [by vm_compute|]. split; [by vm_compute|].
  split; [vm_compute; lia|]. by vm_compute.
Qed.

(** C4. With LOCAL_ENVIRONMENT set to a non-empty value, [MachineChecks]
    returns [(true, nil)] whatever the request carries; its only effects are
    the two log lines of [checkLocal], so neither verifier is consulted. *)
Theorem local_environment_bypass (ext : Collaborators) (r : http.Request) (s : State) :
  os.Getenv (environ s) "LOCAL_ENVIRONMENT" <> "" ->
  MachineChecks ext r s
  = ((true, None),
     addTrace [Log "Local check starting"; Log "Authorized via LOCAL_ENVIRONMENT"] s)
  /\ Forall (fun e => consultsVerifier e = false) (emitted (MachineChecks ext r) s).
Proof.
  intros Henv.
  assert (MachineChecks ext r s
          = ((true, None),
             addTrace [Log "Local check starting";
                       Log "Authorized via LOCAL_ENVIRONMENT"] s)) as Hrun.
  { unfold MachineChecks, bind. by rewrite checkLocal_set. }
  split; [done|].
  rewrite (emitted_of_run _ _ _ _ Hrun). by repeat constructor.
Qed.

Lemma local_environment_bypass_witness :
  MachineChecks demoExt (request [("Authorization", ["Bearer boom"])])
    (startState [("LOCAL_ENVIRONMENT", "1")])
  = ((true, None),
     addTrace [Log "Local check starting"; Log "Authorized via LOCAL_ENVIRONMENT"]
       (startState [("LOCAL_ENVIRONMENT", "1")]))
  /\ Forall (fun e => consultsVerifier e = false)
       (emitted (MachineChecks demoExt (request [("Authorization", ["Bearer boom"])]))
          (startState [("LOCAL_ENVIRONMENT", "1")])).
Proof.
  apply (local_environment_bypass demoExt
           (request [("Authorization", ["Bearer boom"])])
           (startState [("LOCAL_ENVIRONMENT", "1")])).
  discriminate.
Defined.

(** C5. A request with neither an Authorization nor an X-jwt-assertion
    header, in a process without the environment bypass, is denied cleanly:
    [MachineChecks] returns [(false, nil)] and only logs. *)
Theorem no_credentials_denied (ext : Collaborators) (r : http.Request) (s : State) :
  http.Headers r !! "Authorization" = None ->
  http.Headers r !! "X-Jwt-Assertion" = None ->
  os.Getenv (environ s) "LOCAL_ENVIRONMENT" = "" ->
  MachineChecks ext r s
  = ((false, None),
     addTrace [Log "Local check starting"; Log "Local check finished";
               Log "Bearer token check starting"; Log "Bearer token check finished";
               Log "WSO2 check starting"; Log "WSO2 check finished"] s).
Proof.
  intros Hauth Hjwt Henv.
  apply MachineChecks_no_credentials; [done | |]; by apply Get_absent.
Qed.

Lemma no_credentials_denied_witness :
  MachineChecks demoExt (request [("Accept", ["*/*"])]) (startState [("HOME", "/root")])
  = ((false, None),
     addTrace [Log "Local check starting"; Log "Local check finished";
               Log "Bearer token check starting"; Log "Bearer token check finished";
               Log "WSO2 check starting"; Log "WSO2 check finished"]
       (startState [("HOME", "/root")])).
Proof.
  apply (no_credentials_denied demoExt (request [("Accept", ["*/*"])])
           (startState [("HOME", "/root")]));
    reflexivity.
Defined.

(** ** The group check *)

Lemma matchesGroup_elem (c : string) (ADGroups : list string) :
  matchesGroup c ADGroups = true <-> c ∈ ADGroups.
Proof.
  induction ADGroups as [|g rest IH]; simpl.
  - split; [discriminate | by intros ?%not_elem_of_nil].
  - rewrite elem_of_cons. case_bool_decide as Heq.
    + split; [by left | done].
    + rewrite IH. split; [by right | by intros [?|?]].
Qed.

Lemma matchesControl_shared (control ADGroups : list string) :
  matchesControl control ADGroups = true
  <-> exists g, g ∈ control /\ g ∈ ADGroups.
Proof.
  induction control as [|c rest IH]; simpl.
  - split; [discriminate|]. by intros (g & ?%not_elem_of_nil & _).
  - destruct (matchesGroup c ADGroups) eqn:Hc.
    + apply matchesGroup_elem in Hc. split; [|done].
      intros _. exists c. split; [left|done].
    + rewrite IH. split.
      * intros (g & Hg & Hin). exists g. split; [by right|done].
      * intros (g & Hg & Hin). apply elem_of_cons in Hg as [->|Hg].
        -- apply matchesGroup_elem in Hin. congruence.
        -- by exists g.
Qed.

Lemma PassGatekeeper_resolved (ext : Collaborators) (user : string)
  (control : list string) (s : State) :
  snd (GetGroupsForUser ext user) = None ->
  PassGatekeeper ext user control s
  = (matchesControl control (fst (GetGroupsForUser ext user)),
     addTrace [GetGroupsForUserCall user] s).
Proof.
  intros Herr. unfold PassGatekeeper, callGetGroupsForUser, bind, emit, ret.
  destruct (GetGroupsForUser ext user) as [groups err]; simpl in *. by subst.
Qed.

Lemma PassGatekeeper_failed (ext : Collaborators) (user : string)
  (control : list string) (s : State) (e : string) :
  snd (GetGroupsForUser ext user) = Some e ->
  PassGatekeeper ext user control s
  = (false,
     addTrace [GetGroupsForUserCall user;
               Log ("Error getting groups for the user: " +:+ e)] s).
Proof.
  intros Herr. unfold PassGatekeeper, callGetGroupsForUser, bind, log, emit, ret.
  destruct (GetGroupsForUser ext user) as [groups err]; simpl in *. subst.
  by rewrite addTrace_addTrace.
Qed.

(** Every call of [PassGatekeeper] starts with the directory lookup, so a
    run without a [GetGroupsForUserCall] event did not call it. *)
Lemma PassGatekeeper_looks_up (ext : Collaborators) (user : string)
  (control : list string) (s : State) :
  exists evs,
    emitted (PassGatekeeper ext user control) s = GetGroupsForUserCall user :: evs.
Proof.
  destruct (snd (GetGroupsForUser ext user)) as [e|] eqn:Herr.
  - eexists. eapply emitted_of_run. by apply PassGatekeeper_failed.
  - eexists. eapply emitted_of_run. by apply PassGatekeeper_resolved.
Qed.

(** C3. [PassGatekeeper] returns true exactly when the directory lookup
    succeeds and the groups it returns share an element with the control
    list; when the lookup fails it logs the failure and returns false. *)
Theorem PassGatekeeper_shared_group (ext : Collaborators) (user : string)
  (control : list string) (s : State) :
  (fst (PassGatekeeper ext user control s) = true
   <-> snd (GetGroupsForUser ext user) = None
       /\ exists g, g ∈ control /\ g ∈ fst (GetGroupsForUser ext user))
  /\ (forall e, snd (GetGroupsForUser ext user) = Some e ->
      PassGatekeeper ext user control s
      = (false,
         addTrace [GetGroupsForUserCall user;
                   Log ("Error getting groups for the user: " +:+ e)] s)).
Proof.
  split; [|intros e He; by apply PassGatekeeper_failed].
  destruct (snd (GetGroupsForUser ext user)) as [e|] eqn:Herr.
  - rewrite (PassGatekeeper_failed _ _ _ _ e Herr). simpl.
    split; [discriminate | by intros [? _]].
  - rewrite (PassGatekeeper_resolved _ _ _ _ Herr). simpl.
    rewrite matchesControl_shared. split; [by split | by intros [_ ?]].
Qed.

Lemma PassGatekeeper_shared_group_witness :
  (fst (PassGatekeeper demoExt "jdoe" ["admins"; "staff"] (startState [])) = true
   <-> snd (GetGroupsForUser demoExt "jdoe") = None
       /\ exists g, g ∈ ["admins"; "staff"] /\ g ∈ fst (GetGroupsForUser demoExt "jdoe"))
  /\ PassGatekeeper demoExt "bob" ["admins"; "staff"] (startState [])
     = (false,
        addTrace [GetGroupsForUserCall "bob";
                  Log "Error getting groups for the user: no such user"]
          (startState [])).
Proof.
  split.
  - apply (PassGatekeeper_shared_group demoExt "jdoe" ["admins"; "staff"] (startState [])).
  - apply (PassGatekeeper_shared_group demoExt "bob" ["admins"; "staff"] (startState [])).
    reflexivity.
Defined.

(** ** Machine-only mode *)

Lemma filter_responses_machine (evs : list Event) :
  Forall machineEvent evs -> List.filter isResponse evs = [].
Proof.
  induction 1 as [|e evs [He _] _ IH]; simpl; [done|]. by rewrite He.
Qed.

Lemma filter_responses_gatekeeper (evs : list Event) :
  Forall gatekeeperEvent evs -> List.filter isResponse evs = [].
Proof.
  induction 1 as [|e evs [He _] _ IH]; simpl; [done|]. by rewrite He.
Qed.

(** C6. [Authenticate] ends in exactly one of three actions, chosen by the
    result of [MachineChecks]: an error gives a 400 response with the
    error's message, [(true, nil)] runs the wrapped handler, [(false, nil)]
    gives a 400 response "Not authorized".  Exactly one response action is
    taken; no login redirect or directory lookup happens, and the session
    and directory collaborators have no influence on the run. *)
Theorem Authenticate_terminal (ext : Collaborators) (next : Handler)
  (r : http.Request) (s : State) :
  match MachineChecks ext r s with
  | ((_, Some e), s1) =>
      Authenticate ext next r s = (tt, addTrace [JSONResponse 400 e] s1)
  | ((true, None), s1) =>
      Authenticate ext next r s = nextServeHTTP next r s1
  | ((false, None), s1) =>
      Authenticate ext next r s = (tt, addTrace [JSONResponse 400 "Not authorized"] s1)
  end
  /\ length (List.filter isResponse (emitted (Authenticate ext next r) s)) = 1
  /\ Forall (fun e => isUserLevel e = false) (emitted (Authenticate ext next r) s)
  /\ (forall groups session name,
      Authenticate (withUserSide ext groups session name) next r s
      = Authenticate ext next r s).
Proof.
  assert (forall groups session name,
          Authenticate (withUserSide ext groups session name) next r s
          = Authenticate ext next r s) as Hside by reflexivity.
  destruct (MachineChecks_appends ext r s) as (evs & Htr & Hevs).
  assert (Forall (fun e => isUserLevel e = false) evs) as Hlevel.
  { eapply Forall_impl; [exact Hevs|]. by intros e [_ ?]. }
  pose proof (filter_responses_machine evs Hevs) as Hnone.
  assert (forall resp s1 st,
          isResponse resp = true -> isUserLevel resp = false ->
          trace s1 = trace s ++ evs -> trace st = trace s1 ++ [resp] ->
          snd (Authenticate ext next r s) = st ->
          length (List.filter isResponse (emitted (Authenticate ext next r) s)) = 1
          /\ Forall (fun e => isUserLevel e = false)
               (emitted (Authenticate ext next r) s)) as Hone.
  { intros resp s1 st Hresp Hlev H1 Hst Hm.
    rewrite (emitted_of_trace _ s (evs ++ [resp])).
    - rewrite List.filter_app, Hnone. simpl. rewrite Hresp. split; [done|].
      apply Forall_app. split; [done|]. by constructor.
    - by rewrite Hm, Hst, H1, app_assoc. }
  assert (Authenticate ext next r s
          = match MachineChecks ext r s with
            | ((_, Some e), s1) => (tt, addTrace [JSONResponse 400 e] s1)
            | ((true, None), s1) => nextServeHTTP next r s1
            | ((false, None), s1) =>
                (tt, addTrace [JSONResponse 400 "Not authorized"] s1)
            end) as Hrun.
  { unfold Authenticate, bind.
    by destruct (MachineChecks ext r s) as [[[|] [e|]] s1]. }
  destruct (MachineChecks ext r s) as [[[|] [e|]] s1]; simpl in Htr;
    (split; [exact Hrun|]).
  - destruct (Hone (JSONResponse 400 e) s1 (addTrace [JSONResponse 400 e] s1))
      as [? ?]; try done. by rewrite Hrun.
  - destruct (Hone ServeHTTP s1 (snd (nextServeHTTP next r s1)))
      as [? ?]; try done. by rewrite Hrun.
  - destruct (Hone (JSONResponse 400 e) s1 (addTrace [JSONResponse 400 e] s1))
      as [? ?]; try done. by rewrite Hrun.
  - destruct (Hone (JSONResponse 400 "Not authorized") s1
                (addTrace [JSONResponse 400 "Not authorized"] s1))
      as [? ?]; try done. by rewrite Hrun.
Qed.

(** ** User-capable mode *)

(** The handler of [AuthenticateUser], branch by branch. *)
Lemma AuthenticateUser_run (ext : Collaborators) (next : Handler)
  (r : http.Request) (s : State) :
  AuthenticateUser ext next r s
  = match MachineChecks ext r s with
    | ((true, Some e), s1) | ((false, Some e), s1) =>
        (tt, addTrace [JSONResponse 400 e] s1)
    | ((true, None), s1) => nextServeHTTP next r s1
    | ((false, None), s1) =>
        if IsAuthenticated ext r then
          match PassGatekeeper ext (Username ext r) (controlGroups s1) s1 with
          | (true, s2) => nextServeHTTP next r s2
          | (false, s2) => (tt, addTrace [JSONResponse 400 "Not authorized"] s2)
          end
        else (tt, addTrace [RedirectToLogin] s1)
    end.
Proof.
  unfold AuthenticateUser, bind, when.
  destruct (MachineChecks ext r s) as [[[|] [e|]] s1]; simpl; try done.
  destruct (IsAuthenticated ext r); simpl; [|done].
  unfold getenv, controlGroups.
  by destruct (PassGatekeeper ext _ _ s1) as [[|] s2].
Qed.

(** C8. In user-capable mode, when the machine checks deny without error
    and the request has no session, the only thing the middleware does
    after the machine checks is to redirect to the login page; in
    particular no directory lookup is made, so [PassGatekeeper] is not
    called. *)
Theorem no_session_redirect (ext : Collaborators) (next : Handler)
  (r : http.Request) (s s1 : State) :
  MachineChecks ext r s = ((false, None), s1) ->
  IsAuthenticated ext r = false ->
  AuthenticateUser ext next r s = (tt, addTrace [RedirectToLogin] s1)
  /\ emitted (AuthenticateUser ext next r) s
     = emitted (MachineChecks ext r) s ++ [RedirectToLogin]
  /\ Forall (fun e => forall user, e <> GetGroupsForUserCall user)
       (emitted (AuthenticateUser ext next r) s).
Proof.
  intros Hmc Hsession.
  assert (AuthenticateUser ext next r s = (tt, addTrace [RedirectToLogin] s1)) as Hrun.
  { by rewrite AuthenticateUser_run, Hmc, Hsession. }
  destruct (MachineChecks_appends ext r s) as (evs & Htr & Hevs).
  rewrite Hmc in Htr; simpl in Htr.
  rewrite (emitted_of_trace (MachineChecks ext r) s evs) by by rewrite Hmc.
  rewrite (emitted_of_trace (AuthenticateUser ext next r) s (evs ++ [RedirectToLogin]))
    by (rewrite Hrun; simpl; by rewrite Htr, app_assoc).
  split; [done|]. split; [done|].
  apply Forall_app. split; [|by repeat constructor].
  eapply Forall_impl; [exact Hevs|].
  intros e [_ He] user ->. discriminate.
Qed.

Lemma no_session_redirect_witness :
  AuthenticateUser demoExt quietHandler (request []) (startState [])
  = (tt, addTrace [RedirectToLogin]
           (snd (MachineChecks demoExt (request []) (startState []))))
  /\ emitted (AuthenticateUser demoExt quietHandler (request [])) (startState [])
     = emitted (MachineChecks demoExt (request [])) (startState []) ++ [RedirectToLogin]
  /\ Forall (fun e => forall user, e <> GetGroupsForUserCall user)
       (emitted (AuthenticateUser demoExt quietHandler (request [])) (startState [])).
Proof.
  apply (no_session_redirect demoExt quietHandler (request []) (startState [])
           (snd (MachineChecks demoExt (request []) (startState [])))).
  - reflexivity.
  - reflexivity.
Defined.

(** C9. Every run of the handler of [AuthenticateUser] only appends to the
    trace, and among the events it appends exactly one is a response
    action (the wrapped handler, a JSON response or the login redirect). *)
Theorem AuthenticateUser_one_response (ext : Collaborators) (next : Handler)
  (r : http.Request) (s : State) :
  trace (snd (AuthenticateUser ext next r s))
  = trace s ++ emitted (AuthenticateUser ext next r) s
  /\ length (List.filter isResponse (emitted (AuthenticateUser ext next r) s)) = 1.
Proof.
  assert (exists evs resp,
            trace (snd (AuthenticateUser ext next r s)) = trace s ++ evs ++ [resp]
            /\ List.filter isResponse evs = [] /\ isResponse resp = true)
    as (evs & resp & Htr & Hnone & Hresp).
  { rewrite AuthenticateUser_run.
    destruct (MachineChecks_appends ext r s) as (evs1 & Htr1 & Hevs1).
    apply filter_responses_machine in Hevs1.
    destruct (MachineChecks ext r s) as [[[|] [e|]] s1]; simpl in Htr1.
    - exists evs1, (JSONResponse 400 e). simpl. by rewrite Htr1, app_assoc.
    - exists evs1, ServeHTTP. simpl. by rewrite Htr1, app_assoc.
    - exists evs1, (JSONResponse 400 e). simpl. by rewrite Htr1, app_assoc.
    - destruct (IsAuthenticated ext r).
      + destruct (PassGatekeeper_appends ext (Username ext r) (controlGroups s1) s1)
          as (evs2 & Htr2 & Hevs2).
        apply filter_responses_gatekeeper in Hevs2.
        destruct (PassGatekeeper ext _ _ s1) as [[|] s2]; simpl in Htr2.
        * exists (evs1 ++ evs2), ServeHTTP. simpl.
          rewrite Htr2, Htr1, List.filter_app, Hevs1, Hevs2.
          by rewrite <- !app_assoc.
        * exists (evs1 ++ evs2), (JSONResponse 400 "Not authorized"). simpl.
          rewrite Htr2, Htr1, List.filter_app, Hevs1, Hevs2.
          by rewrite <- !app_assoc.
      + exists evs1, RedirectToLogin. simpl. by rewrite Htr1, app_assoc. }
  rewrite (emitted_of_trace _ s _ Htr). split; [done|].
  rewrite List.filter_app, Hnone. simpl. by rewrite Hresp.
Qed.

(** ** The allow-list over the life of the process *)

Lemma controlGroups_environ (s s' : State) :
  environ s' = environ s -> controlGroups s' = controlGroups s.
Proof. intros H. unfold controlGroups. by rewrite H. Qed.

(** The group branch of [AuthenticateUser]: the allow-list handed to
    [PassGatekeeper] is read from the environment the request arrives in. *)
Lemma AuthenticateUser_group_branch (ext : Collaborators) (next : Handler)
  (r : http.Request) (s s1 : State) :
  MachineChecks ext r s = ((false, None), s1) ->
  IsAuthenticated ext r = true ->
  AuthenticateUser ext next r s
  = (access <- PassGatekeeper ext (Username ext r) (controlGroups s) ;;
     when access (nextServeHTTP next r) ;;;
     when (negb access) (jsonrespNew http.StatusBadRequest "Not authorized")) s1.
Proof.
  intros Hmc Hsession.
  pose proof (MachineChecks_keepsEnv ext r s) as Henv.
  rewrite AuthenticateUser_run, Hmc, Hsession. rewrite Hmc in Henv; simpl in Henv.
  rewrite (controlGroups_environ s s1 Henv). unfold bind.
  by destruct (PassGatekeeper ext _ _ s1) as [[|] s2].
Qed.

(** A request changes the environment only through the wrapped handler. *)
Lemma handle_environ (ext : Collaborators) (next : Handler) (m : Mode)
  (r : http.Request) (s : State) :
  environ (snd (handle ext next m r s)) = environ s
  \/ environ (snd (handle ext next m r s)) = next r (environ s).
Proof.
  pose proof (MachineChecks_keepsEnv ext r s) as Henv.
  destruct m; simpl.
  - unfold Authenticate, bind.
    destruct (MachineChecks ext r s) as [[[|] [e|]] s1]; simpl in *;
      rewrite Henv; auto.
  - rewrite AuthenticateUser_run.
    destruct (MachineChecks ext r s) as [[[|] [e|]] s1]; simpl in *;
      try (rewrite Henv; auto).
    destruct (IsAuthenticated ext r); simpl; [|auto].
    pose proof (PassGatekeeper_keepsEnv ext (Username ext r) (controlGroups s1) s1)
      as Hgate.
    destruct (PassGatekeeper ext _ _ s1) as [[|] s2]; simpl in *;
      rewrite Hgate, Henv; auto.
Qed.

(** C7, amended.  The allow-list is not loaded once: every request that
    reaches the group check reads GEN_CONTROL_GROUPS again.  The middleware
    never writes the environment, so when the wrapped handler leaves
    GEN_CONTROL_GROUPS as it is, every state the process reaches has the
    allow-list of the start, and that list is what the group check of
    every request receives. *)
Theorem control_groups_follow_environment (next : Handler) (s0 s : State) :
  (forall r env,
     os.Getenv (next r env) "GEN_CONTROL_GROUPS" = os.Getenv env "GEN_CONTROL_GROUPS") ->
  reachable next s0 s ->
  controlGroups s = controlGroups s0
  /\ (forall ext r s1,
      MachineChecks ext r s = ((false, None), s1) ->
      IsAuthenticated ext r = true ->
      AuthenticateUser ext next r s
      = (access <- PassGatekeeper ext (Username ext r) (controlGroups s0) ;;
         when access (nextServeHTTP next r) ;;;
         when (negb access) (jsonrespNew http.StatusBadRequest "Not authorized")) s1).
Proof.
  intros Hnext Hreach.
  assert (controlGroups s = controlGroups s0) as Hsame.
  { induction Hreach as [|s ext m r Hreach IH]; [done|].
    rewrite <- IH. unfold controlGroups.
    destruct (handle_environ ext next m r s) as [-> | ->]; [done|].
    by rewrite Hnext. }
  split; [done|].
  intros ext r s1 Hmc Hsession. rewrite <- Hsame.
  by apply AuthenticateUser_group_branch.
Qed.

Lemma control_groups_follow_environment_witness :
  controlGroups (snd (handle demoExt quietHandler UserCapable demoUserRequest demoStart))
  = controlGroups demoStart
  /\ AuthenticateUser demoExt quietHandler demoUserRequest
       (snd (handle demoExt quietHandler UserCapable demoUserRequest demoStart))
     = (access <- PassGatekeeper demoExt (Username demoExt demoUserRequest)
                    (controlGroups demoStart) ;;
        when access (nextServeHTTP quietHandler demoUserRequest) ;;;
        when (negb access) (jsonrespNew http.StatusBadRequest "Not authorized"))
         (snd (MachineChecks demoExt demoUserRequest
                 (snd (handle demoExt quietHandler UserCapable demoUserRequest
                         demoStart)))).
Proof.
  destruct (control_groups_follow_environment quietHandler demoStart
              (snd (handle demoExt quietHandler UserCapable demoUserRequest demoStart)))
    as [Hsame Hcall].
  - intros r env. reflexivity.
  - apply reach_request, reach_start.
  - split; [exact Hsame|]. apply Hcall; reflexivity.
Defined.

(** C7 as stated fails: the same request of the same user is answered by
    the wrapped handler first and by 400 afterwards, because the handler
    changed GEN_CONTROL_GROUPS in between and the second request read the
    new value. *)
Lemma control_groups_reloaded :
  reachable setenvHandler demoStart
    (snd (handle demoExt setenvHandler UserCapable demoUserRequest demoStart))
  /\ controlGroups demoStart = ["admins"; "staff"]
  /\ controlGroups
       (snd (handle demoExt setenvHandler UserCapable demoUserRequest demoStart))
     = ["admins"]
  /\ List.filter isResponse
       (emitted (AuthenticateUser demoExt setenvHandler demoUserRequest) demoStart)
     = [ServeHTTP]
  /\ List.filter isResponse
       (emitted (AuthenticateUser demoExt setenvHandler demoUserRequest)
          (snd (handle demoExt setenvHandler UserCapable demoUserRequest demoStart)))
     = [JSONResponse 400 "Not authorized"].
Proof.
  split; [apply reach_request, reach_start|].
  repeat split; by vm_compute.
Qed.

(** ** An unset GEN_CONTROL_GROUPS *)

Lemma genSplit_nonempty (sep : string) (skip : nat) (cur s : string) :
  strings.genSplit sep skip cur s <> [].
Proof.
  revert skip cur.
  induction s as [|c s IH]; intros skip cur; cbn [strings.genSplit]; [done|].
  destruct skip as [|k]; [|apply IH].
  destruct (String.prefix sep (String c s)); [done | apply IH].
Qed.

Lemma Split_nonempty (s sep : string) : sep <> "" -> strings.Split s sep <> [].
Proof.
  intros Hsep. destruct sep as [|c sep]; [done|]. apply genSplit_nonempty.
Qed.

(** C10. Whatever the environment, the allow-list is never the empty
    list.  When GEN_CONTROL_GROUPS is unset or empty it is the one-element
    list holding the empty string; [PassGatekeeper] then admits every user
    whose directory groups include the empty string, and such a user
    without machine credentials and with a session reaches the wrapped
    handler. *)
Theorem unset_control_groups (ext : Collaborators) (next : Handler)
  (r : http.Request) (s : State) :
  (forall s', controlGroups s' <> [])
  /\ (os.Getenv (environ s) "GEN_CONTROL_GROUPS" = "" ->
      controlGroups s = [""]
      /\ (forall user s1,
          snd (GetGroupsForUser ext user) = None ->
          "" ∈ fst (GetGroupsForUser ext user) ->
          fst (PassGatekeeper ext user (controlGroups s) s1) = true)
      /\ (forall s1,
          MachineChecks ext r s = ((false, None), s1) ->
          IsAuthenticated ext r = true ->
          snd (GetGroupsForUser ext (Username ext r)) = None ->
          "" ∈ fst (GetGroupsForUser ext (Username ext r)) ->
          emitted (AuthenticateUser ext next r) s
          = emitted (MachineChecks ext r) s
            ++ [GetGroupsForUserCall (Username ext r); ServeHTTP])).
Proof.
  split; [intros s'; by apply Split_nonempty|].
  intros Henv.
  assert (controlGroups s = [""]) as Hcontrol.
  { unfold controlGroups. by rewrite Henv. }
  assert (forall user s1,
          snd (GetGroupsForUser ext user) = None ->
          "" ∈ fst (GetGroupsForUser ext user) ->
          PassGatekeeper ext user (controlGroups s) s1
          = (true, addTrace [GetGroupsForUserCall user] s1)) as Hgate.
  { intros user s1 Herr Hin. rewrite PassGatekeeper_resolved by done. f_equal.
    apply matchesControl_shared. exists "". split; [|done].
    rewrite Hcontrol. by left. }
  split; [done|]. split.
  - intros user s1 Herr Hin. by rewrite Hgate.
  - intros s1 Hmc Hsession Herr Hin.
    destruct (MachineChecks_appends ext r s) as (evs & Htr & _).
    rewrite Hmc in Htr; simpl in Htr.
    rewrite (emitted_of_trace (MachineChecks ext r) s evs) by by rewrite Hmc.
    apply emitted_of_trace.
    rewrite (AuthenticateUser_group_branch ext next r s s1) by done.
    unfold bind. rewrite Hgate by done. simpl.
    by rewrite Htr, <- !app_assoc.
Qed.

Lemma unset_control_groups_witness :
  (forall s', controlGroups s' <> [])
  /\ controlGroups (startState []) = [""]
  /\ fst (PassGatekeeper demoExt "guest" (controlGroups (startState []))
            (startState [])) = true
  /\ emitted (AuthenticateUser demoExt quietHandler demoGuestRequest) (startState [])
     = emitted (MachineChecks demoExt demoGuestRequest) (startState [])
       ++ [GetGroupsForUserCall (Username demoExt demoGuestRequest); ServeHTTP].
Proof.
  destruct (unset_control_groups demoExt quietHandler demoGuestRequest (startState []))
    as [Hnever Hunset].
  destruct Hunset as (Hcontrol & Hgate & Hserve); [reflexivity|].
  split; [exact Hnever|]. split; [exact Hcontrol|]. split.
  - apply Hgate; [reflexivity | vm_compute; left].
  - apply (Hserve (snd (MachineChecks demoExt demoGuestRequest (startState []))));
      [reflexivity | reflexivity | reflexivity | vm_compute; left].
Defined.

(** * Further properties of the code *)

(** ** Strings: appending, splitting and joining *)

Lemma append_cons (c : ascii) (a b : string) :
  String c a +:+ b = String c (a +:+ b).
Proof. reflexivity. Qed.

Lemma append_nil_l (b : string) : "" +:+ b = b.
Proof. reflexivity. Qed.

Lemma append_nil_r (a : string) : a +:+ "" = a.
Proof. induction a as [|c a IH]; [done|]. by rewrite append_cons, IH. Qed.

Lemma append_assoc (a b c : string) : (a +:+ b) +:+ c = a +:+ (b +:+ c).
Proof. induction a as [|x a IH]; [done|]. by rewrite !append_cons, IH. Qed.

Lemma append_snoc (cur : string) (c : ascii) (s : string) :
  (cur +:+ String c "") +:+ s = cur +:+ String c s.
Proof. by rewrite append_assoc. Qed.

Lemma prefix_space (c : ascii) (s : string) :
  String.prefix " " (String c s) = bool_decide (c = " "%char).
Proof.
  cbn [String.prefix]. destruct (ascii_dec " " c) as [<-|Hc].
  - rewrite bool_decide_true by done. by destruct s.
  - by rewrite bool_decide_false by congruence.
Qed.

(** A text without a space is one part. *)
Lemma genSplit_no_space (cur s : string) :
  spaces s = 0 -> strings.genSplit " " 0 cur s = [cur +:+ s].
Proof.
  revert cur. induction s as [|c s IH]; intros cur Hs.
  - by rewrite append_nil_r.
  - cbn [strings.genSplit]. rewrite prefix_space.
    cbn [spaces] in Hs. case_bool_decide; [done|].
    rewrite IH by done. by rewrite append_snoc.
Qed.

Lemma genSplit_first_space (cur a b : string) :
  spaces a = 0 ->
  strings.genSplit " " 0 cur (a +:+ String " " b)
  = (cur +:+ a) :: strings.genSplit " " 0 "" b.
Proof.
  revert cur. induction a as [|c a IH]; intros cur Ha.
  - rewrite append_nil_l, append_nil_r. cbn [strings.genSplit].
    by rewrite prefix_space, bool_decide_true.
  - rewrite append_cons. cbn [strings.genSplit]. rewrite prefix_space.
    cbn [spaces] in Ha. case_bool_decide; [done|].
    rewrite IH by done. by rewrite append_snoc.
Qed.

Lemma Split_one_space (a b : string) :
  spaces a = 0 -> spaces b = 0 ->
  strings.Split (a +:+ " " +:+ b) " " = [a; b].
Proof.
  intros Ha Hb.
  change (strings.genSplit " " 0 "" (a +:+ String " " b) = [a; b]).
  rewrite genSplit_first_space by done.
  by rewrite genSplit_no_space.
Qed.

Lemma lowerByte_space (c : ascii) :
  bool_decide (strings.lowerByte c = " "%char) = bool_decide (c = " "%char).
Proof. by destruct c as [[] [] [] [] [] [] [] []]. Qed.

Lemma spaces_lower (s : string) : spaces (strings.lower s) = spaces s.
Proof.
  induction s as [|c s IH]; [done|].
  cbn [strings.lower spaces]. by rewrite lowerByte_space, IH.
Qed.

(** A scheme that folds to "Bearer" has no space in it. *)
Lemma EqualFold_no_space (scheme : string) :
  strings.EqualFold scheme "Bearer" = true -> spaces scheme = 0.
Proof.
  intros H. apply bool_decide_eq_true in H.
  rewrite <- spaces_lower, H. reflexivity.
Qed.

(** ** A well-formed bearer header *)

(** The bearer check on a header value that splits into a scheme and a
    credential: the verifier decides. *)
Lemma checkBearerToken_split (ext : Collaborators) (r : http.Request) (s : State)
  (scheme cred : string) :
  strings.Split (http.Get (http.Headers r) "Authorization") " " = [scheme; cred] ->
  strings.EqualFold scheme "Bearer" = true ->
  checkBearerToken ext r s
  = match CheckToken ext cred with
    | (true, Some e) | (false, Some e) =>
        ((false, Some e),
         addTrace [Log "Bearer token check starting"; CheckTokenCall cred] s)
    | (true, None) =>
        ((true, None),
         addTrace [Log "Bearer token check starting"; CheckTokenCall cred;
                   Log "Bearer token authorized"] s)
    | (false, None) =>
        ((false, None),
         addTrace [Log "Bearer token check starting"; CheckTokenCall cred;
                   Log "Bearer token check finished"] s)
    end.
Proof.
  intros Hsplit Hscheme.
  assert (http.Get (http.Headers r) "Authorization" <> "") as Hne.
  { intros Hempty. by rewrite Hempty in Hsplit. }
  unfold checkBearerToken. cbv zeta.
  rewrite Hsplit, nonempty_length, bool_decide_false by done.
  change ([scheme; cred] !!! 0%nat) with scheme.
  change ([scheme; cred] !!! 1%nat) with cred.
  rewrite Hscheme.
  unfold callCheckToken, bind, log, emit, ret. simpl.
  destruct (CheckToken ext cred) as [[|] [e|]]; simpl;
    by rewrite !addTrace_addTrace.
Qed.

Lemma bearer_header_parts (scheme cred : string) :
  strings.EqualFold scheme "Bearer" = true ->
  spaces cred = 0 ->
  strings.Split (scheme +:+ " " +:+ cred) " " = [scheme; cred].
Proof.
  intros Hscheme Hcred. apply Split_one_space; [|done].
  by apply EqualFold_no_space.
Qed.

(** X1. For an Authorization value made of a scheme that is "Bearer" up to
    case, one space, and a credential without a space (possibly empty),
    [checkBearerToken] hands exactly the credential to the verifier and
    returns what the verifier says: its error with [false], [(true, nil)]
    when valid, [(false, nil)] when not. *)
Theorem bearer_credential_verified (ext : Collaborators) (r : http.Request)
  (s : State) (scheme cred : string) :
  http.Get (http.Headers r) "Authorization" = scheme +:+ " " +:+ cred ->
  strings.EqualFold scheme "Bearer" = true ->
  spaces cred = 0 ->
  emitted (checkBearerToken ext r) s !! 1%nat = Some (CheckTokenCall cred)
  /\ List.filter isCheckTokenCall (emitted (checkBearerToken ext r) s)
     = [CheckTokenCall cred]
  /\ fst (checkBearerToken ext r s)
     = match CheckToken ext cred with
       | (_, Some e) => (false, Some e)
       | (valid, None) => (valid, None)
       end.
Proof.
  intros Hheader Hscheme Hcred.
  pose proof (checkBearerToken_split ext r s scheme cred) as Hrun.
  rewrite Hheader in Hrun.
  specialize (Hrun (bearer_header_parts scheme cred Hscheme Hcred) Hscheme).
  destruct (CheckToken ext cred) as [[|] [e|]];
    rewrite (emitted_of_run _ _ _ _ Hrun), Hrun; done.
Qed.

Lemma bearer_credential_verified_witness :
  emitted (checkBearerToken demoExt (request [("Authorization", ["bEaReR good"])]))
    (startState []) !! 1%nat = Some (CheckTokenCall "good")
  /\ List.filter isCheckTokenCall
       (emitted (checkBearerToken demoExt (request [("Authorization", ["bEaReR good"])]))
          (startState []))
     = [CheckTokenCall "good"]
  /\ fst (checkBearerToken demoExt (request [("Authorization", ["bEaReR good"])])
            (startState []))
     = match CheckToken demoExt "good" with
       | (_, Some e) => (false, Some e)
       | (valid, None) => (valid, None)
       end.
Proof.
  apply (bearer_credential_verified demoExt
           (request [("Authorization", ["bEaReR good"])]) (startState [])
           "bEaReR" "good"); reflexivity.
Defined.

(** X2. A failure of the bearer verifier ends the request in both modes:
    with the bypass unset and a well-formed bearer header, the client gets
    a 400 response carrying the verifier's own message, and the JWT
    verifier, the session and the directory are not consulted. *)
Theorem verifier_failure_is_400 (ext : Collaborators) (next : Handler)
  (r : http.Request) (s : State) (scheme cred : string) (valid : bool) (e : string) :
  os.Getenv (environ s) "LOCAL_ENVIRONMENT" = "" ->
  http.Get (http.Headers r) "Authorization" = scheme +:+ " " +:+ cred ->
  strings.EqualFold scheme "Bearer" = true ->
  spaces cred = 0 ->
  CheckToken ext cred = (valid, Some e) ->
  emitted (Authenticate ext next r) s
  = [Log "Local check starting"; Log "Local check finished";
     Log "Bearer token check starting"; CheckTokenCall cred;
     JSONResponse 400 e]
  /\ AuthenticateUser ext next r s = Authenticate ext next r s.
Proof.
  intros Henv Hheader Hscheme Hcred Hfail.
  pose proof (checkBearerToken_split ext r) as Hrun.
  rewrite Hheader in Hrun.
  assert (MachineChecks ext r s
          = ((false, Some e),
             addTrace [Log "Local check starting"; Log "Local check finished";
                       Log "Bearer token check starting"; CheckTokenCall cred] s))
    as Hmc.
  { unfold MachineChecks, bind. rewrite checkLocal_unset by done.
    rewrite (Hrun _ scheme cred) by (by try apply bearer_header_parts).
    rewrite Hfail. destruct valid; unfold ret; by rewrite addTrace_addTrace. }
  split.
  - eapply emitted_of_run with (a := tt). unfold Authenticate, bind.
    rewrite Hmc. unfold jsonrespNew, emit. by rewrite addTrace_addTrace.
  - rewrite AuthenticateUser_run. unfold Authenticate, bind. by rewrite Hmc.
Qed.

Lemma verifier_failure_is_400_witness :
  emitted (Authenticate demoExt quietHandler
             (request [("Authorization", ["Bearer boom"]); ("X-Jwt-Assertion", ["jwt"])]))
    (startState [])
  = [Log "Local check starting"; Log "Local check finished";
     Log "Bearer token check starting"; CheckTokenCall "boom";
     JSONResponse 400 "verifier down"]
  /\ AuthenticateUser demoExt quietHandler
       (request [("Authorization", ["Bearer boom"]); ("X-Jwt-Assertion", ["jwt"])])
       (startState [])
     = Authenticate demoExt quietHandler
         (request [("Authorization", ["Bearer boom"]); ("X-Jwt-Assertion", ["jwt"])])
         (startState []).
Proof.
  apply (verifier_failure_is_400 demoExt quietHandler
           (request [("Authorization", ["Bearer boom"]); ("X-Jwt-Assertion", ["jwt"])])
           (startState []) "Bearer" "boom" false "verifier down"); reflexivity.
Defined.

(** X3. Bearer comes before JWT.  With the bypass unset and a well-formed
    bearer header whose credential the verifier accepts, [MachineChecks]
    returns [(true, nil)] without looking at the X-jwt-assertion header;
    when the verifier rejects the credential without error, the result of
    [MachineChecks] is that of the JWT check run next. *)
Theorem bearer_before_jwt (ext : Collaborators) (r : http.Request) (s : State)
  (scheme cred : string) (valid : bool) :
  os.Getenv (environ s) "LOCAL_ENVIRONMENT" = "" ->
  http.Get (http.Headers r) "Authorization" = scheme +:+ " " +:+ cred ->
  strings.EqualFold scheme "Bearer" = true ->
  spaces cred = 0 ->
  CheckToken ext cred = (valid, None) ->
  MachineChecks ext r s
  = if valid then
      ((true, None),
       addTrace [Log "Local check starting"; Log "Local check finished";
                 Log "Bearer token check starting"; CheckTokenCall cred;
                 Log "Bearer token authorized"] s)
    else
      checkWSO2 ext r
        (addTrace [Log "Local check starting"; Log "Local check finished";
                   Log "Bearer token check starting"; CheckTokenCall cred;
                   Log "Bearer token check finished"] s).
Proof.
  intros Henv Hheader Hscheme Hcred Hok.
  pose proof (checkBearerToken_split ext r) as Hrun.
  rewrite Hheader in Hrun.
  unfold MachineChecks, bind. rewrite checkLocal_unset by done.
  rewrite (Hrun _ scheme cred) by (by try apply bearer_header_parts).
  rewrite Hok. destruct valid; unfold ret; rewrite addTrace_addTrace; [done|].
  simpl. by destruct (checkWSO2 ext r _) as [[[|] [e|]] s3].
Qed.

Lemma bearer_before_jwt_witness :
  MachineChecks demoExt
    (request [("Authorization", ["Bearer good"]); ("X-Jwt-Assertion", ["bad"])])
    (startState [])
  = ((true, None),
     addTrace [Log "Local check starting"; Log "Local check finished";
               Log "Bearer token check starting"; CheckTokenCall "good";
               Log "Bearer token authorized"] (startState [])).
Proof.
  apply (bearer_before_jwt demoExt
           (request [("Authorization", ["Bearer good"]); ("X-Jwt-Assertion", ["bad"])])
           (startState []) "Bearer" "good" true); reflexivity.
Defined.

(** X4. The JWT check takes the whole X-jwt-assertion value, unparsed.
    With the bypass unset and no Authorization value, a non-empty
    assertion is handed to the JWT verifier as it is, and [MachineChecks]
    returns the verifier's verdict: its error with [false] (after logging
    "Invalid WSO2 information"), [(true, nil)] or [(false, nil)]. *)
Theorem assertion_verified (ext : Collaborators) (r : http.Request) (s : State)
  (token : string) :
  os.Getenv (environ s) "LOCAL_ENVIRONMENT" = "" ->
  http.Get (http.Headers r) "Authorization" = "" ->
  http.Get (http.Headers r) "X-jwt-assertion" = token ->
  token <> "" ->
  MachineChecks ext r s
  = (match Validate ext token with
     | (_, Some e) => (false, Some e)
     | (valid, None) => (valid, None)
     end,
     addTrace ([Log "Local check starting"; Log "Local check finished";
                Log "Bearer token check starting"; Log "Bearer token check finished";
                Log "WSO2 check starting"; ValidateCall token]
               ++ match Validate ext token with
                  | (_, Some _) => [Log "Invalid WSO2 information"]
                  | (true, None) => [Log "WSO2 validated successfully"]
                  | (false, None) => [Log "WSO2 check finished"]
                  end) s).
Proof.
  intros Henv Hauth Hjwt Hne.
  unfold MachineChecks, bind. rewrite checkLocal_unset by done.
  rewrite checkBearerToken_no_token by done.
  unfold checkWSO2, callValidate, bind, log, emit, ret. simpl.
  rewrite Hjwt, nonempty_length, bool_decide_false by done. simpl.
  destruct (Validate ext token) as [[|] [e|]]; simpl;
    by rewrite !addTrace_addTrace.
Qed.

Lemma assertion_verified_witness :
  MachineChecks demoExt (request [("X-Jwt-Assertion", ["jwt"])]) (startState [])
  = (match Validate demoExt "jwt" with
     | (_, Some e) => (false, Some e)
     | (valid, None) => (valid, None)
     end,
     addTrace ([Log "Local check starting"; Log "Local check finished";
                Log "Bearer token check starting"; Log "Bearer token check finished";
                Log "WSO2 check starting"; ValidateCall "jwt"]
               ++ match Validate demoExt "jwt" with
                  | (_, Some _) => [Log "Invalid WSO2 information"]
                  | (true, None) => [Log "WSO2 validated successfully"]
                  | (false, None) => [Log "WSO2 check finished"]
                  end) (startState [])).
Proof.
  apply (assertion_verified demoExt (request [("X-Jwt-Assertion", ["jwt"])])
           (startState []) "jwt"); [reflexivity | reflexivity | reflexivity | discriminate].
Defined.

(** ** What the machine checks do and never do *)

(** Case analysis on every test of the machine checks, keeping the
    outcome of each test as an equation. *)
Ltac split_tests :=
  repeat match goal with
    | |- context [CheckToken ?e ?t] =>
        destruct (CheckToken e t) as [[|] [?|]] eqn:?; simpl
    | |- context [Validate ?e ?t] =>
        destruct (Validate e t) as [[|] [?|]] eqn:?; simpl
    | |- context [if ?b then _ else _] => destruct b eqn:?; simpl
    end.

Ltac unfold_checks :=
  unfold MachineChecks, checkLocal, checkBearerToken, checkWSO2,
    callCheckToken, callValidate, bind, log, getenv, emit, ret;
  cbv zeta.

(** The verifier calls of one run of [MachineChecks]. *)
Lemma MachineChecks_calls (ext : Collaborators) (r : http.Request) (s : State) :
  exists evs,
    snd (MachineChecks ext r s) = addTrace evs s
    /\ length (List.filter isCheckTokenCall evs) <= 1
    /\ length (List.filter isValidateCall evs) <= 1
    /\ List.filter isDirectoryCall evs = [].
Proof.
  unfold_checks. simpl.
  split_tests; rewrite ?addTrace_addTrace; eexists;
    (split; [reflexivity|]); simpl; (split; [lia|]); (split; [lia|]); done.
Qed.

(** X5. [MachineChecks] never reports success together with an error: a
    result with a non-nil error always has [passed = false]; and the
    environment check itself never fails. *)
Theorem error_excludes_success (ext : Collaborators) (r : http.Request) (s : State) :
  (forall e, fst (MachineChecks ext r s) <> (true, Some e))
  /\ snd (fst (checkLocal s)) = None.
Proof.
  split.
  - intros e. unfold_checks. simpl. split_tests; discriminate.
  - unfold_checks. simpl. by split_tests.
Qed.

(** X6. An authorization by [MachineChecks] always has a reason in the
    code: the bypass variable is non-empty, or the Authorization value has
    exactly two parts, the first "Bearer" up to case, and the bearer
    verifier accepted the second, or the X-jwt-assertion value is
    non-empty and the JWT verifier accepted it. *)
Theorem authorized_has_a_reason (ext : Collaborators) (r : http.Request) (s : State) :
  fst (MachineChecks ext r s) = (true, None) ->
  os.Getenv (environ s) "LOCAL_ENVIRONMENT" <> ""
  \/ (length (strings.Split (http.Get (http.Headers r) "Authorization") " ") = 2
      /\ strings.EqualFold
           (strings.Split (http.Get (http.Headers r) "Authorization") " " !!! 0%nat)
           "Bearer" = true
      /\ CheckToken ext
           (strings.Split (http.Get (http.Headers r) "Authorization") " " !!! 1%nat)
         = (true, None))
  \/ (http.Get (http.Headers r) "X-jwt-assertion" <> ""
      /\ Validate ext (http.Get (http.Headers r) "X-jwt-assertion") = (true, None)).
Proof.
  unfold_checks. cbv beta. rewrite !nonempty_length.
  destruct (decide (os.Getenv (environ s) "LOCAL_ENVIRONMENT" = "")) as [Henv|Henv];
    [|by left].
  intros H. right. revert H.
  remember (strings.Split (http.Get (http.Headers r) "Authorization") " ") as parts.
  remember (http.Get (http.Headers r) "X-jwt-assertion") as jwt.
  cbn [environ addTrace]. rewrite Henv. simpl.
  split_tests; intros; try discriminate;
    repeat match goal with
      | H : negb (bool_decide _) = true |- _ =>
          apply negb_true_iff, bool_decide_eq_false in H
      | H : (_ || _) = false |- _ => apply orb_false_iff in H as [? ?]
      | H : negb _ = false |- _ => apply negb_false_iff in H
      | H : (_ =? _)%nat = true |- _ => apply Nat.eqb_eq in H
      end; auto.
Qed.

Lemma authorized_has_a_reason_witness :
  os.Getenv (environ (startState [])) "LOCAL_ENVIRONMENT" <> ""
  \/ (length (strings.Split
                (http.Get (http.Headers (request [("Authorization", ["Bearer good"])]))
                   "Authorization") " ") = 2
      /\ strings.EqualFold
           (strings.Split
              (http.Get (http.Headers (request [("Authorization", ["Bearer good"])]))
                 "Authorization") " " !!! 0%nat)
           "Bearer" = true
      /\ CheckToken demoExt
           (strings.Split
              (http.Get (http.Headers (request [("Authorization", ["Bearer good"])]))
                 "Authorization") " " !!! 1%nat)
         = (true, None))
  \/ (http.Get (http.Headers (request [("Authorization", ["Bearer good"])]))
        "X-jwt-assertion" <> ""
      /\ Validate demoExt
           (http.Get (http.Headers (request [("Authorization", ["Bearer good"])]))
              "X-jwt-assertion") = (true, None)).
Proof.
  apply (authorized_has_a_reason demoExt
           (request [("Authorization", ["Bearer good"])]) (startState [])).
  reflexivity.
Defined.

(** X7. The effects of [MachineChecks] are confined: it leaves the process
    environment as it is, only appends to the trace, writes no response,
    makes no redirect and no directory lookup, and calls each of the two
    verifiers at most once. *)
Theorem machine_checks_effects (ext : Collaborators) (r : http.Request) (s : State) :
  environ (snd (MachineChecks ext r s)) = environ s
  /\ trace (snd (MachineChecks ext r s)) = trace s ++ emitted (MachineChecks ext r) s
  /\ Forall (fun e => isResponse e = false /\ isUserLevel e = false)
       (emitted (MachineChecks ext r) s)
  /\ length (List.filter isCheckTokenCall (emitted (MachineChecks ext r) s)) <= 1
  /\ length (List.filter isValidateCall (emitted (MachineChecks ext r) s)) <= 1.
Proof.
  split; [apply MachineChecks_keepsEnv|].
  destruct (MachineChecks_appends ext r s) as (evs & Htr & Hevs).
  destruct (MachineChecks_calls ext r s) as (evs' & Hrun & Hbearer & Hjwt & _).
  assert (evs' = evs) as ->.
  { rewrite Hrun in Htr. simpl in Htr. by apply app_inv_head in Htr. }
  rewrite (emitted_of_trace _ s evs Htr). done.
Qed.

(** ** More on the group check *)

(** X8. Only the set of control groups matters to [PassGatekeeper]: a
    control list with more groups never revokes an access, and two lists
    with the same members (in any order, with any repetitions) give the
    same answer. *)
Theorem PassGatekeeper_control_set (ext : Collaborators) (user : string)
  (control control' : list string) (s : State) :
  ((forall g, g ∈ control -> g ∈ control') ->
   fst (PassGatekeeper ext user control s) = true ->
   fst (PassGatekeeper ext user control' s) = true)
  /\ ((forall g, g ∈ control <-> g ∈ control') ->
      fst (PassGatekeeper ext user control s)
      = fst (PassGatekeeper ext user control' s)).
Proof.
  assert (forall c c' : list string,
            (forall g, g ∈ c -> g ∈ c') ->
            fst (PassGatekeeper ext user c s) = true ->
            fst (PassGatekeeper ext user c' s) = true) as Hmono.
  { intros c c' Hsub.
    destruct (snd (GetGroupsForUser ext user)) as [e|] eqn:Herr.
    - by rewrite !(PassGatekeeper_failed _ _ _ _ e Herr).
    - rewrite !(PassGatekeeper_resolved _ _ _ _ Herr). simpl.
      rewrite !matchesControl_shared. intros (g & Hg & Hin).
      exists g. split; [by apply Hsub | done]. }
  split; [apply Hmono|].
  intros Hsame.
  destruct (fst (PassGatekeeper ext user control s)) eqn:H1,
           (fst (PassGatekeeper ext user control' s)) eqn:H2; try done.
  - rewrite (Hmono control control') in H2; [done | apply Hsame | done].
  - rewrite (Hmono control' control) in H1; [done | apply Hsame | done].
Qed.

Lemma PassGatekeeper_control_set_witness :
  (fst (PassGatekeeper demoExt "jdoe" ["staff"] (startState [])) = true ->
   fst (PassGatekeeper demoExt "jdoe" ["admins"; "staff"] (startState [])) = true)
  /\ fst (PassGatekeeper demoExt "jdoe" ["admins"; "staff"] (startState []))
     = fst (PassGatekeeper demoExt "jdoe" ["staff"; "admins"; "staff"] (startState [])).
Proof.
  split.
  - apply (PassGatekeeper_control_set demoExt "jdoe" ["staff"] ["admins"; "staff"]
             (startState [])).
    intros g Hg. by right.
  - apply (PassGatekeeper_control_set demoExt "jdoe" ["admins"; "staff"]
             ["staff"; "admins"; "staff"] (startState [])).
    intros g. rewrite !elem_of_cons. tauto.
Defined.

(** X9. Empty inputs of [PassGatekeeper] deny: with an empty control list,
    or for a user whose lookup returns no groups, the answer is false
    whatever the other list holds. *)
Theorem PassGatekeeper_empty (ext : Collaborators) (user : string)
  (control : list string) (s : State) :
  fst (PassGatekeeper ext user [] s) = false
  /\ (fst (GetGroupsForUser ext user) = [] ->
      fst (PassGatekeeper ext user control s) = false).
Proof.
  destruct (snd (GetGroupsForUser ext user)) as [e|] eqn:Herr.
  - by rewrite !(PassGatekeeper_failed _ _ _ _ e Herr).
  - rewrite !(PassGatekeeper_resolved _ _ _ _ Herr). simpl. split; [done|].
    intros Hgroups. apply not_true_is_false.
    rewrite matchesControl_shared, Hgroups.
    intros (g & _ & Hg). by apply not_elem_of_nil in Hg.
Qed.

Lemma PassGatekeeper_empty_witness :
  fst (PassGatekeeper demoExt "nobody" [] (startState [])) = false
  /\ fst (PassGatekeeper
            (withUserSide demoExt (fun _ => ([], None)) (fun _ => true) (fun _ => "u"))
            "u" ["admins"] (startState [])) = false.
Proof.
  split.
  - exact (proj1 (PassGatekeeper_empty demoExt "nobody" [] (startState []))).
  - apply (proj2 (PassGatekeeper_empty
                    (withUserSide demoExt (fun _ => ([], None)) (fun _ => true)
                       (fun _ => "u"))
                    "u" ["admins"] (startState []))).
    reflexivity.
Defined.

(** ** Who reaches the wrapped handler *)

Lemma serve_not_machine (evs : list Event) :
  Forall machineEvent evs -> ServeHTTP ∉ evs.
Proof.
  intros Hevs Hin. rewrite Forall_forall in Hevs.
  by destruct (Hevs _ Hin) as [? _].
Qed.

Lemma serve_not_gatekeeper (evs : list Event) :
  Forall gatekeeperEvent evs -> ServeHTTP ∉ evs.
Proof.
  intros Hevs Hin. rewrite Forall_forall in Hevs.
  by destruct (Hevs _ Hin) as [? _].
Qed.

Lemma serve_last (evs : list Event) (resp : Event) :
  ServeHTTP ∉ evs -> (ServeHTTP ∈ evs ++ [resp] <-> resp = ServeHTTP).
Proof.
  intros Hevs. rewrite elem_of_app, list_elem_of_singleton.
  split; [by intros [?|?] | by right].
Qed.

(** X10. In machine-only mode the wrapped handler runs exactly for the
    requests that [MachineChecks] authorizes without error; every other
    request leaves the process environment as it was. *)
Theorem Authenticate_serves_iff (ext : Collaborators) (next : Handler)
  (r : http.Request) (s : State) :
  (ServeHTTP ∈ emitted (Authenticate ext next r) s
   <-> fst (MachineChecks ext r s) = (true, None))
  /\ environ (snd (Authenticate ext next r s))
     = if bool_decide (fst (MachineChecks ext r s) = (true, None))
       then next r (environ s) else environ s.
Proof.
  destruct (MachineChecks_appends ext r s) as (evs & Htr & Hevs).
  pose proof (MachineChecks_keepsEnv ext r s) as Henv.
  apply serve_not_machine in Hevs.
  unfold Authenticate, bind.
  assert (forall m : M unit, forall resp s1 st,
            trace s1 = trace s ++ evs -> trace st = trace s1 ++ [resp] ->
            snd (m s) = st ->
            (ServeHTTP ∈ emitted m s <-> resp = ServeHTTP)) as Hlast.
  { intros m resp s1 st H1 Hst Hm.
    rewrite (emitted_of_trace m s (evs ++ [resp])); [by apply serve_last|].
    by rewrite Hm, Hst, H1, app_assoc. }
  destruct (MachineChecks ext r s) as [[[|] [e|]] s1] eqn:Hmc; simpl in *.
  - split; [|by rewrite Henv].
    rewrite (Hlast _ (JSONResponse 400 e) s1 (addTrace [JSONResponse 400 e] s1));
      [done | done | done | by rewrite Hmc].
  - split; [|by rewrite Henv].
    rewrite (Hlast _ ServeHTTP s1 (snd (nextServeHTTP next r s1)));
      [done | done | done | by rewrite Hmc].
  - split; [|by rewrite Henv].
    rewrite (Hlast _ (JSONResponse 400 e) s1 (addTrace [JSONResponse 400 e] s1));
      [done | done | done | by rewrite Hmc].
  - split; [|by rewrite Henv].
    rewrite (Hlast _ (JSONResponse 400 "Not authorized") s1
               (addTrace [JSONResponse 400 "Not authorized"] s1));
      [done | done | done | by rewrite Hmc].
Qed.

(** X11. In user-capable mode the wrapped handler runs exactly when the
    machine checks authorize, or when they deny without error, the request
    has a session, the directory lookup succeeds and one of the groups it
    returns is in the allow-list read from GEN_CONTROL_GROUPS. *)
Theorem AuthenticateUser_serves_iff (ext : Collaborators) (next : Handler)
  (r : http.Request) (s : State) :
  ServeHTTP ∈ emitted (AuthenticateUser ext next r) s
  <-> fst (MachineChecks ext r s) = (true, None)
      \/ (fst (MachineChecks ext r s) = (false, None)
          /\ IsAuthenticated ext r = true
          /\ snd (GetGroupsForUser ext (Username ext r)) = None
          /\ exists g, g ∈ controlGroups s
                       /\ g ∈ fst (GetGroupsForUser ext (Username ext r))).
Proof.
  destruct (MachineChecks_appends ext r s) as (evs & Htr & Hevs).
  pose proof (MachineChecks_keepsEnv ext r s) as Henv.
  apply serve_not_machine in Hevs.
  assert (forall pre resp st,
            ServeHTTP ∉ pre -> trace st = trace s ++ pre ++ [resp] ->
            snd (AuthenticateUser ext next r s) = st ->
            (ServeHTTP ∈ emitted (AuthenticateUser ext next r) s
             <-> resp = ServeHTTP)) as Hlast.
  { intros pre resp st Hpre Hst Hm.
    rewrite (emitted_of_trace _ s (pre ++ [resp])); [by apply serve_last|].
    by rewrite Hm, Hst. }
  pose proof (AuthenticateUser_run ext next r s) as Hrun.
  destruct (MachineChecks ext r s) as [[[|] [e|]] s1] eqn:Hmc; simpl in *.
  - rewrite (Hlast evs (JSONResponse 400 e) (addTrace [JSONResponse 400 e] s1));
      [| done | by simpl; rewrite Htr, app_assoc | by rewrite Hrun].
    split; [done | by intros [?|[? _]]].
  - rewrite (Hlast evs ServeHTTP (snd (nextServeHTTP next r s1)));
      [| done | by simpl; rewrite Htr, app_assoc | by rewrite Hrun].
    split; [by left | done].
  - rewrite (Hlast evs (JSONResponse 400 e) (addTrace [JSONResponse 400 e] s1));
      [| done | by simpl; rewrite Htr, app_assoc | by rewrite Hrun].
    split; [done | by intros [?|[? _]]].
  - rewrite (controlGroups_environ s s1 Henv) in Hrun.
    destruct (IsAuthenticated ext r).
    + destruct (snd (GetGroupsForUser ext (Username ext r))) as [e|] eqn:Herr.
      * rewrite (PassGatekeeper_failed _ _ _ _ e Herr) in Hrun.
        rewrite (Hlast (evs ++ [GetGroupsForUserCall (Username ext r);
                               Log ("Error getting groups for the user: " +:+ e)])
                   (JSONResponse 400 "Not authorized") (snd (AuthenticateUser ext next r s)));
          [| | by rewrite Hrun; simpl; rewrite Htr, <- !app_assoc | done].
        -- split; [done | by intros [?|(_ & _ & ? & _)]].
        -- rewrite elem_of_app. intros [?|Hin]; [done|].
           apply elem_of_cons in Hin as [?|Hin]; [done|].
           by apply list_elem_of_singleton in Hin.
      * rewrite (PassGatekeeper_resolved _ _ _ _ Herr) in Hrun.
        assert (ServeHTTP ∉ evs ++ [GetGroupsForUserCall (Username ext r)]) as Hpre.
        { rewrite elem_of_app. intros [?|Hin]; [done|].
          by apply list_elem_of_singleton in Hin. }
        destruct (matchesControl (controlGroups s)
                    (fst (GetGroupsForUser ext (Username ext r)))) eqn:Hmatch.
        -- rewrite (Hlast _ ServeHTTP (snd (AuthenticateUser ext next r s)) Hpre);
             [| by rewrite Hrun; simpl; rewrite Htr, <- !app_assoc | done].
           apply matchesControl_shared in Hmatch. split; [|done].
           intros _. by right.
        -- rewrite (Hlast _ (JSONResponse 400 "Not authorized")
                      (snd (AuthenticateUser ext next r s)) Hpre);
             [| by rewrite Hrun; simpl; rewrite Htr, <- !app_assoc | done].
           split; [done|]. intros [?|(_ & _ & _ & Hshared)]; [done|].
           apply matchesControl_shared in Hshared. congruence.
    + rewrite (Hlast evs RedirectToLogin (addTrace [RedirectToLogin] s1));
        [| done | by simpl; rewrite Htr, app_assoc | by rewrite Hrun].
      split; [done | by intros [?|(_ & ? & _)]].
Qed.

Lemma existsb_serve_machine (evs : list Event) :
  Forall machineEvent evs -> existsb isServe evs = false.
Proof.
  induction 1 as [|e evs [He _] _ IH]; [done|].
  simpl. rewrite IH. by destruct e.
Qed.

Lemma existsb_serve_gatekeeper (evs : list Event) :
  Forall gatekeeperEvent evs -> existsb isServe evs = false.
Proof.
  induction 1 as [|e evs [He _] _ IH]; [done|].
  simpl. rewrite IH. by destruct e.
Qed.

(** X12. A request changes the process environment only by running the
    wrapped handler: after a user-mode request the environment is what
    the handler made of it when the handler ran, and is unchanged when
    the request was answered by a 400 response or a redirect. *)
Theorem environment_follows_handler (ext : Collaborators) (next : Handler)
  (r : http.Request) (s : State) :
  environ (snd (AuthenticateUser ext next r s))
  = if existsb isServe (emitted (AuthenticateUser ext next r) s)
    then next r (environ s) else environ s.
Proof.
  destruct (MachineChecks_appends ext r s) as (evs & Htr & Hevs).
  pose proof (MachineChecks_keepsEnv ext r s) as Henv.
  apply existsb_serve_machine in Hevs.
  assert (forall pre resp,
            existsb isServe pre = false ->
            trace (snd (AuthenticateUser ext next r s)) = trace s ++ pre ++ [resp] ->
            existsb isServe (emitted (AuthenticateUser ext next r) s) = isServe resp)
    as Hlast.
  { intros pre resp Hpre Hst.
    rewrite (emitted_of_trace _ s (pre ++ [resp]) Hst).
    rewrite existsb_app, Hpre. simpl. apply orb_false_r. }
  rewrite AuthenticateUser_run in Hlast |- *.
  destruct (MachineChecks ext r s) as [[[|] [e|]] s1]; simpl in Htr, Henv.
  - rewrite (Hlast evs (JSONResponse 400 e)); [by simpl | done |].
    simpl. by rewrite Htr, app_assoc.
  - rewrite (Hlast evs ServeHTTP); [by simpl; rewrite Henv | done |].
    simpl. by rewrite Htr, app_assoc.
  - rewrite (Hlast evs (JSONResponse 400 e)); [by simpl | done |].
    simpl. by rewrite Htr, app_assoc.
  - destruct (IsAuthenticated ext r).
    + destruct (PassGatekeeper_appends ext (Username ext r) (controlGroups s1) s1)
        as (evs2 & Htr2 & Hevs2).
      pose proof (PassGatekeeper_keepsEnv ext (Username ext r) (controlGroups s1) s1)
        as Henv2.
      apply existsb_serve_gatekeeper in Hevs2.
      assert (existsb isServe (evs ++ evs2) = false) as Hpre.
      { by rewrite existsb_app, Hevs, Hevs2. }
      destruct (PassGatekeeper ext _ _ s1) as [[|] s2]; simpl in Htr2, Henv2.
      * rewrite (Hlast (evs ++ evs2) ServeHTTP);
          [by simpl; rewrite Henv2, Henv | done |].
        simpl. by rewrite Htr2, Htr, <- !app_assoc.
      * rewrite (Hlast (evs ++ evs2) (JSONResponse 400 "Not authorized"));
          [by simpl; rewrite Henv2, Henv | done |].
        simpl. by rewrite Htr2, Htr, <- !app_assoc.
    + rewrite (Hlast evs RedirectToLogin); [by simpl | done |].
      simpl. by rewrite Htr, app_assoc.
Qed.

(** X13. A failed directory lookup is not disclosed to the client: when
    the machine checks deny without error and the request has a session,
    a lookup error is written to the log and the client gets the same 400
    "Not authorized" as a user without a matching group. *)
Theorem lookup_failure_not_disclosed (ext : Collaborators) (next : Handler)
  (r : http.Request) (s s1 : State) (e : string) :
  MachineChecks ext r s = ((false, None), s1) ->
  IsAuthenticated ext r = true ->
  snd (GetGroupsForUser ext (Username ext r)) = Some e ->
  emitted (AuthenticateUser ext next r) s
  = emitted (MachineChecks ext r) s
    ++ [GetGroupsForUserCall (Username ext r);
        Log ("Error getting groups for the user: " +:+ e);
        JSONResponse 400 "Not authorized"].
Proof.
  intros Hmc Hsession Herr.
  destruct (MachineChecks_appends ext r s) as (evs & Htr & _).
  rewrite Hmc in Htr; simpl in Htr.
  rewrite (emitted_of_trace (MachineChecks ext r) s evs) by by rewrite Hmc.
  apply emitted_of_trace.
  rewrite (AuthenticateUser_group_branch ext next r s s1) by done.
  unfold bind. rewrite (PassGatekeeper_failed _ _ _ _ e Herr). simpl.
  by rewrite Htr, <- !app_assoc.
Qed.

Lemma lookup_failure_not_disclosed_witness :
  emitted (AuthenticateUser demoExt quietHandler (request [("Cookie", ["bob"])]))
    demoStart
  = emitted (MachineChecks demoExt (request [("Cookie", ["bob"])])) demoStart
    ++ [GetGroupsForUserCall (Username demoExt (request [("Cookie", ["bob"])]));
        Log ("Error getting groups for the user: " +:+ "no such user");
        JSONResponse 400 "Not authorized"].
Proof.
  apply (lookup_failure_not_disclosed demoExt quietHandler
           (request [("Cookie", ["bob"])]) demoStart
           (snd (MachineChecks demoExt (request [("Cookie", ["bob"])]) demoStart))
           "no such user"); reflexivity.
Defined.

(** X14. The two modes differ only after a clean denial: whenever
    [MachineChecks] returns an error or authorizes, [AuthenticateUser]
    does exactly what [Authenticate] does, without looking at the session
    or the directory. *)
Theorem modes_agree_when_decided (ext : Collaborators) (next : Handler)
  (r : http.Request) (s : State) :
  fst (MachineChecks ext r s) <> (false, None) ->
  AuthenticateUser ext next r s = Authenticate ext next r s
  /\ (forall groups session name,
      AuthenticateUser (withUserSide ext groups session name) next r s
      = AuthenticateUser ext next r s).
Proof.
  intros Hdecided.
  assert (forall groups session name,
            MachineChecks (withUserSide ext groups session name) r s
            = MachineChecks ext r s) as Hside by reflexivity.
  split.
  - rewrite AuthenticateUser_run. unfold Authenticate, bind.
    by destruct (MachineChecks ext r s) as [[[|] [e|]] s1].
  - intros groups session name.
    rewrite !AuthenticateUser_run, Hside.
    by destruct (MachineChecks ext r s) as [[[|] [e|]] s1].
Qed.

Lemma modes_agree_when_decided_witness :
  AuthenticateUser demoExt quietHandler (request [("Authorization", ["Bearer good"])])
    (startState [])
  = Authenticate demoExt quietHandler (request [("Authorization", ["Bearer good"])])
      (startState [])
  /\ (forall groups session name,
      AuthenticateUser (withUserSide demoExt groups session name) quietHandler
        (request [("Authorization", ["Bearer good"])]) (startState [])
      = AuthenticateUser demoExt quietHandler
          (request [("Authorization", ["Bearer good"])]) (startState [])).
Proof.
  apply (modes_agree_when_decided demoExt quietHandler
           (request [("Authorization", ["Bearer good"])]) (startState [])).
  vm_compute. discriminate.
Defined.

(** ** Splitting loses nothing *)

Lemma genSplit_skip (sep : string) (k : nat) (cur s : string) :
  strings.genSplit sep k cur s = strings.genSplit sep 0 cur (dropBytes k s).
Proof.
  revert k. induction s as [|c s IH]; intros k; [by destruct k|].
  destruct k as [|k]; [done|]. cbn [strings.genSplit dropBytes]. apply IH.
Qed.

Lemma prefix_dropBytes (p s : string) :
  String.prefix p s = true -> s = p +:+ dropBytes (String.length p) s.
Proof.
  revert s. induction p as [|a p IH]; intros s Hp; [by destruct s|].
  destruct s as [|b s]; [done|]. cbn [String.prefix] in Hp.
  destruct (ascii_dec a b) as [->|]; [|done].
  cbn [String.length dropBytes]. rewrite append_cons. f_equal. by apply IH.
Qed.

Lemma length_dropBytes (k : nat) (s : string) :
  String.length (dropBytes k s) <= String.length s.
Proof.
  revert k. induction s as [|c s IH]; intros k; [by destruct k|].
  destruct k as [|k]; [done|]. cbn [dropBytes String.length].
  specialize (IH k). lia.
Qed.

Lemma concat_cons (sep x : string) (rest : list string) :
  rest <> [] -> String.concat sep (x :: rest) = x +:+ sep +:+ String.concat sep rest.
Proof. by destruct rest. Qed.

Lemma genSplit_concat (sep : string) (n : nat) :
  sep <> "" ->
  forall cur s, String.length s <= n ->
  String.concat sep (strings.genSplit sep 0 cur s) = cur +:+ s.
Proof.
  intros Hsep. induction n as [|n IH]; intros cur s Hlen.
  - destruct s; [|simpl in Hlen; lia]. simpl. by rewrite append_nil_r.
  - destruct s as [|c s]; [simpl; by rewrite append_nil_r|].
    cbn [strings.genSplit].
    destruct (String.prefix sep (String c s)) eqn:Hp.
    + rewrite concat_cons by apply genSplit_nonempty.
      rewrite genSplit_skip, IH.
      * rewrite append_nil_l. apply prefix_dropBytes in Hp.
        destruct sep as [|a sep]; [done|].
        cbn [String.length dropBytes] in Hp.
        replace (String.length (String a sep) - 1) with (String.length sep)
          by (simpl; lia).
        by rewrite <- Hp.
      * pose proof (length_dropBytes (String.length sep - 1) s).
        simpl in Hlen. lia.
    + rewrite IH by (simpl in Hlen; lia). apply append_snoc.
Qed.

Lemma Split_concat (s sep : string) :
  sep <> "" -> String.concat sep (strings.Split s sep) = s.
Proof.
  intros Hsep. destruct sep as [|a sep]; [done|].
  change (String.concat (String a sep) (strings.genSplit (String a sep) 0 "" s) = s).
  by rewrite (genSplit_concat _ (String.length s)).
Qed.

(** X15. Splitting loses nothing: the allow-list joined with ", " is the
    value of GEN_CONTROL_GROUPS byte for byte (nothing is trimmed, dropped
    or reordered), and the parts of an Authorization value joined with a
    space are that value. *)
Theorem split_parts_rejoin (s : State) (r : http.Request) :
  String.concat ", " (controlGroups s)
  = os.Getenv (environ s) "GEN_CONTROL_GROUPS"
  /\ String.concat " "
       (strings.Split (http.Get (http.Headers r) "Authorization") " ")
     = http.Get (http.Headers r) "Authorization".
Proof. split; by apply Split_concat. Qed.

(** X16. An Authorization value is accepted for verification only with
    exactly one space: a non-empty value with no space ("Bearer" alone, a
    bare token) or with two or more (a doubled or trailing extra space)
    gets the error "Bad Authorization header" and the verifier is not
    called. *)
Theorem wrong_number_of_spaces (ext : Collaborators) (r : http.Request)
  (s : State) :
  http.Get (http.Headers r) "Authorization" <> "" ->
  spaces (http.Get (http.Headers r) "Authorization") <> 1 ->
  checkBearerToken ext r s
  = ((false, Some "Bad Authorization header"),
     addTrace [Log "Bearer token check starting"] s).
Proof.
  intros Hne Hspaces.
  apply (checkBearerToken_malformed ext r s _ eq_refl Hne).
  left. rewrite Split_space_length. lia.
Qed.

Lemma wrong_number_of_spaces_witness :
  checkBearerToken demoExt (request [("Authorization", ["Bearer  good"])])
    (startState [])
  = ((false, Some "Bad Authorization header"),
     addTrace [Log "Bearer token check starting"] (startState [])).
Proof.
  apply (wrong_number_of_spaces demoExt
           (request [("Authorization", ["Bearer  good"])]) (startState []));
    vm_compute; discriminate.
Defined.

(** ** Header names *)








(** ** Calls and responses, request by request *)

(** X18. No collaborator is asked twice: while one user-mode request is
    handled, the bearer verifier, the JWT verifier and the directory are
    each called at most once (nothing is retried). *)
Theorem collaborators_called_at_most_once (ext : Collaborators) (next : Handler)
  (r : http.Request) (s : State) :
  length (List.filter isCheckTokenCall (emitted (AuthenticateUser ext next r) s)) <= 1
  /\ length (List.filter isValidateCall (emitted (AuthenticateUser ext next r) s)) <= 1
  /\ length (List.filter isDirectoryCall (emitted (AuthenticateUser ext next r) s)) <= 1.
Proof.
  destruct (MachineChecks_calls ext r s) as (evs & Hrun & Hbearer & Hjwt & Hdir).
  assert (forall rest,
            length (List.filter isCheckTokenCall rest) = 0 ->
            length (List.filter isValidateCall rest) = 0 ->
            length (List.filter isDirectoryCall rest) <= 1 ->
            trace (snd (AuthenticateUser ext next r s)) = trace s ++ evs ++ rest ->
            length (List.filter isCheckTokenCall
                      (emitted (AuthenticateUser ext next r) s)) <= 1
            /\ length (List.filter isValidateCall
                         (emitted (AuthenticateUser ext next r) s)) <= 1
            /\ length (List.filter isDirectoryCall
                         (emitted (AuthenticateUser ext next r) s)) <= 1) as Hrest.
  { intros rest H1 H2 H3 Htr. rewrite (emitted_of_trace _ s _ Htr).
    rewrite !List.filter_app, !length_app, Hdir. simpl. lia. }
  rewrite AuthenticateUser_run in Hrest.
  destruct (MachineChecks ext r s) as [[[|] [e|]] s1]; simpl in Hrun; subst s1.
  - apply (Hrest [JSONResponse 400 e]); simpl; try lia. by rewrite <- app_assoc.
  - apply (Hrest [ServeHTTP]); simpl; try lia. by rewrite <- app_assoc.
  - apply (Hrest [JSONResponse 400 e]); simpl; try lia. by rewrite <- app_assoc.
  - destruct (IsAuthenticated ext r).
    + destruct (snd (GetGroupsForUser ext (Username ext r))) as [e|] eqn:Herr.
      * rewrite (PassGatekeeper_failed _ _ _ _ e Herr) in Hrest.
        apply (Hrest [GetGroupsForUserCall (Username ext r);
                       Log ("Error getting groups for the user: " +:+ e);
                       JSONResponse 400 "Not authorized"]); simpl; try lia.
        by rewrite <- !app_assoc.
      * rewrite (PassGatekeeper_resolved _ _ _ _ Herr) in Hrest.
        destruct (matchesControl _ _).
        -- apply (Hrest [GetGroupsForUserCall (Username ext r); ServeHTTP]);
             simpl; try lia. by rewrite <- !app_assoc.
        -- apply (Hrest [GetGroupsForUserCall (Username ext r);
                          JSONResponse 400 "Not authorized"]); simpl; try lia.
           by rewrite <- !app_assoc.
    + apply (Hrest [RedirectToLogin]); simpl; try lia. by rewrite <- app_assoc.
Qed.

(** Every request, in either mode, appends events ending in its one
    response action. *)
Lemma handle_response (ext : Collaborators) (next : Handler) (m : Mode)
  (r : http.Request) (s : State) :
  exists pre resp,
    trace (snd (handle ext next m r s)) = trace s ++ pre ++ [resp]
    /\ List.filter isResponse pre = [] /\ isResponse resp = true.
Proof.
  destruct (MachineChecks_appends ext r s) as (evs & Htr & Hevs).
  apply filter_responses_machine in Hevs.
  destruct m; simpl.
  - unfold Authenticate, bind.
    destruct (MachineChecks ext r s) as [[[|] [e|]] s1]; simpl in *.
    + exists evs, (JSONResponse 400 e). by rewrite Htr, app_assoc.
    + exists evs, ServeHTTP. by rewrite Htr, app_assoc.
    + exists evs, (JSONResponse 400 e). by rewrite Htr, app_assoc.
    + exists evs, (JSONResponse 400 "Not authorized"). by rewrite Htr, app_assoc.
  - rewrite AuthenticateUser_run.
    destruct (MachineChecks ext r s) as [[[|] [e|]] s1]; simpl in Htr.
    + exists evs, (JSONResponse 400 e). simpl. by rewrite Htr, app_assoc.
    + exists evs, ServeHTTP. simpl. by rewrite Htr, app_assoc.
    + exists evs, (JSONResponse 400 e). simpl. by rewrite Htr, app_assoc.
    + destruct (IsAuthenticated ext r).
      * destruct (PassGatekeeper_appends ext (Username ext r) (controlGroups s1) s1)
          as (evs2 & Htr2 & Hevs2).
        apply filter_responses_gatekeeper in Hevs2.
        destruct (PassGatekeeper ext _ _ s1) as [[|] s2]; simpl in Htr2.
        -- exists (evs ++ evs2), ServeHTTP. simpl.
           rewrite Htr2, Htr, List.filter_app, Hevs, Hevs2.
           by rewrite <- !app_assoc.
        -- exists (evs ++ evs2), (JSONResponse 400 "Not authorized"). simpl.
           rewrite Htr2, Htr, List.filter_app, Hevs, Hevs2.
           by rewrite <- !app_assoc.
      * exists evs, RedirectToLogin. simpl. by rewrite Htr, app_assoc.
Qed.

(** X19. Over a whole run of the process, in any mix of the two modes and
    whatever the collaborators answer, the trace keeps everything that was
    in it and gains exactly one response action per request served. *)
Theorem one_response_per_request (next : Handler)
  (requests : list (Collaborators * Mode * http.Request)) (s : State) :
  (exists evs, trace (serveAll next requests s) = trace s ++ evs)
  /\ length (List.filter isResponse (trace (serveAll next requests s)))
     = length (List.filter isResponse (trace s)) + length requests.
Proof.
  revert s. induction requests as [|[[ext m] r] rest IH]; intros s.
  - split; [exists []; simpl; by rewrite app_nil_r | simpl; lia].
  - cbn [serveAll]. destruct (IH (snd (handle ext next m r s))) as [[evs Htr] Hcount].
    destruct (handle_response ext next m r s) as (pre & resp & Hstep & Hpre & Hresp).
    split.
    + exists ((pre ++ [resp]) ++ evs). by rewrite Htr, Hstep, <- !app_assoc.
    + rewrite Hcount, Hstep, !List.filter_app, Hpre, !length_app. simpl.
      rewrite Hresp. simpl. lia.
Qed.
